(** * A low level GraphQL client: request encoding and response reconciliation

    An embedding of [graphql.go].  The client serialises a query and its
    variables in one of three wire encodings (JSON, multipart form fields,
    multipart request spec), hands the result to an HTTP capability and
    reconciles the decoded response envelope with the HTTP status.

    Conventions:
    - JSON texts are kept as syntax trees ([json]); the concrete rendering
      done by [encoding/json] (escaping, trailing newline) is not modelled;
    - multipart bodies are kept as the list of their parts;
    - a Go map is a [gmap], with an [option] around it where the code
      distinguishes the nil map;
    - [req *Request] and [resp interface{}] are cells of the [World] that
      every method threads, next to the trace of log lines and of requests
      handed to the HTTP capability;
    - what the Go runtime and the standard library decide (the decoder of
      the response, URL parsing, header canonicalisation, the multipart
      boundary, the default HTTP client) is gathered in [Platform], and the
      properties hold for every platform. *)

From Stdlib Require Import String Ascii ZArith List Lia.
From stdpp Require Import base option list gmap strings sorting pretty.

#[local] Set Warnings "-register-all".
Local Open Scope string_scope.
Local Open Scope Z_scope.
Local Open Scope list_scope.

(** ** JSON syntax trees and Go values *)

Inductive json : Type :=
| JNull
| JBool (b : bool)
| JNumber (n : Z)
| JString (s : string)
| JArray (elems : list json)
| JObject (members : list (string * json)).

(** A value of type [interface{}], seen through what [json.Marshal] makes of
    it: the nil interface, a value with a JSON rendering, or a value of a kind
    the encoder refuses (a channel, a function, a complex number). *)
Inductive any : Type :=
| AnyNil
| AnyJSON (j : json)
| AnyUnsupported (ty : string).

(** ** Errors *)

Inductive ctxErr : Type := Canceled | DeadlineExceeded.

Record graphErr : Type := { Message : string }.

Inductive error : Type :=
| errors_New (msg : string)
| errors_Wrap (cause : error) (msg : string)
| ErrStatus (code : Z)
| ErrContext (e : ctxErr)
| ErrGraph (e : graphErr)
| ErrLib (msg : string).

(** [func (e graphErr) Error() string] *)
Definition graphErr_Error (e : graphErr) : string :=
  "graphql: " +:+ Message e.

(** The text [err.Error()] of each error value the client can return. *)
Fixpoint Error (err : error) : string :=
  match err with
  | errors_New msg => msg
  | errors_Wrap cause msg => msg +:+ ": " +:+ Error cause
  | ErrStatus code =>
      "graphql: server returned a non-200 status code: " +:+ pretty code
  | ErrContext Canceled => "context canceled"
  | ErrContext DeadlineExceeded => "context deadline exceeded"
  | ErrGraph e => graphErr_Error e
  | ErrLib msg => msg
  end.

Inductive result (A : Type) : Type :=
| Ok (a : A)
| Err (e : error).
Arguments Ok {A} a.
Arguments Err {A} e.

Definition result_bind {A B} (r : result A) (k : A → result B) : result B :=
  match r with
  | Ok a => k a
  | Err e => Err e
  end.

Fixpoint result_mapM {A B} (f : A → result B) (l : list A) : result (list B) :=
  match l with
  | [] => Ok []
  | x :: rest =>
      result_bind (f x) (λ y,
      result_bind (result_mapM f rest) (λ ys, Ok (y :: ys)))
  end.

(** ** [encoding/json] on the types this package marshals *)

Definition marshal_any (v : any) : result json :=
  match v with
  | AnyNil => Ok JNull
  | AnyJSON j => Ok j
  | AnyUnsupported ty => Err (ErrLib ("json: unsupported type: " +:+ ty))
  end.

(** Map keys are written in increasing byte order. *)
Definition key_le {A} (x y : string * A) : Prop :=
  String.leb x.1 y.1 = true.

Global Instance key_le_dec {A} (x y : string * A) : Decision (key_le x y).
Proof. unfold key_le. apply _. Defined.

Definition sorted_members {A} (m : gmap string A) : list (string * A) :=
  merge_sort key_le (map_to_list m).

Definition marshal_member (kv : string * any) : result (string * json) :=
  result_bind (marshal_any kv.2) (λ j, Ok (kv.1, j)).

(** [map[string]interface{}]: the nil map is [null], any other map an object. *)
Definition marshal_vars (vs : option (gmap string any)) : result json :=
  match vs with
  | None => Ok JNull
  | Some m =>
      result_bind (result_mapM marshal_member (sorted_members m))
                  (λ ms, Ok (JObject ms))
  end.

(** [[]interface{}] *)
Definition marshal_slice (l : list any) : result json :=
  result_bind (result_mapM marshal_any l) (λ js, Ok (JArray js)).

(** [map[string][]string] as built by this package (never the nil map). *)
Definition marshal_Map (m : gmap string (list string)) : json :=
  JObject (prod_map id (λ paths, JArray (JString <$> paths))
             <$> sorted_members m).

(** ** Request model *)

(** An [io.Reader]: the bytes it yields, then end of input or an error. *)
Record Reader : Type := { r_data : string; r_err : option error }.

Record File : Type := { Field : string; Name : string; R : option Reader }.

(** The text of a form field: a string written as it is, or the JSON text
    of a syntax tree. *)
Inductive text : Type :=
| Raw (s : string)
| JSONText (j : json).

(** One part of a multipart body, as [WriteField] or [CreateFormField]
    ([FormField]) and [CreateFormFile] followed by the copy of the content
    ([FormFile]) make it. *)
Inductive Part : Type :=
| FormField (fieldname : string) (value : text)
| FormFile (fieldname filename : string) (content : string).

(** The contents of a [bytes.Buffer] holding an encoded body. *)
Inductive Buffer : Type :=
| Empty
| JSONBody (j : json)
| Multipart (parts : list Part).

(** [type Request struct].  [body] is the body an encoder has staged for the
    request; the reads the transport makes from that buffer while sending
    are not tracked. *)
Record Request : Type := {
  q : string;
  vars : option (gmap string any);
  files : list File;
  Header : gmap string (list string);
  body : Buffer;
  contentType : string
}.

(** [func NewRequest(q string) *Request] *)
Definition NewRequest (query : string) : Request :=
  {| q := query; vars := None; files := []; Header := ∅;
     body := Empty; contentType := "" |}.

(** [func (req *Request) Var(key string, value interface{})]: the map is
    made on the first call. *)
Definition Var (key : string) (value : any) (req : Request) : Request :=
  let m := match vars req with None => ∅ | Some m => m end in
  {| q := q req; vars := Some (<[key := value]> m); files := files req;
     Header := Header req; body := body req;
     contentType := contentType req |}.

(** [Vars], [Files] and [Query] *)
Definition Vars (req : Request) : option (gmap string any) := vars req.
Definition Files (req : Request) : list File := files req.
Definition Query (req : Request) : string := q req.

(** [func (req *Request) File(fieldname, filename string, r io.Reader)],
    under another name since [File] is the record; a nil [r] is [None]. *)
Definition AddFile (fieldname filename : string) (r : option Reader)
    (req : Request) : Request :=
  {| q := q req; vars := vars req;
     files := files req ++ [{| Field := fieldname; Name := filename; R := r |}];
     Header := Header req; body := body req;
     contentType := contentType req |}.

(** [len(req.vars)]: zero for the nil map. *)
Definition len_vars (req : Request) : nat :=
  match vars req with None => 0%nat | Some m => size m end.

(** ** The multipart request spec query *)

(** What [query.Operations.Variables] can hold: a [*Variables] with its
    [Files], or a [*VariablesEmpty]. *)
Inductive specVariables : Type :=
| Variables (Files : list any)
| VariablesEmpty.

Record operations : Type := {
  op_Query : string;
  op_Variables : specVariables
}.

Record multipartRequestSpecQuery : Type := {
  Operations : operations;
  Map : gmap string (list string)
}.

(** [strconv.Itoa] on a slice index. *)
Definition Itoa (index : nat) : string := pretty index.

(** The [for index, file := range req.Files()] loop. *)
Fixpoint fill_loop (index : nat) (fs : list File)
    (placeholders : list any) (entries : gmap string (list string))
    : list any * gmap string (list string) :=
  match fs with
  | [] => (placeholders, entries)
  | file :: rest =>
      fill_loop (S index) rest (placeholders ++ [AnyNil])
        (<[Field file := ["variables.files." +:+ Itoa index]]> entries)
  end.

(** [func (req *Request) fillMultipartRequestSpecQuery()] *)
Definition fillMultipartRequestSpecQuery (req : Request)
    : multipartRequestSpecQuery :=
  let '(placeholders, entries) := fill_loop 0 (Files req) [] ∅ in
  {| Operations :=
       {| op_Query := Query req;
          op_Variables :=
            if decide (0 < length (Files req))%nat
            then Variables placeholders else VariablesEmpty |};
     Map := entries |}.

(** [json.Marshal(multipartRequestSpecQuery.Operations)] *)
Definition marshal_specVariables (v : specVariables) : result json :=
  match v with
  | Variables Files =>
      result_bind (marshal_slice Files) (λ a, Ok (JObject [("files", a)]))
  | VariablesEmpty => Ok (JObject [])
  end.

Definition marshal_Operations (o : operations) : result json :=
  result_bind (marshal_specVariables (op_Variables o)) (λ v,
  Ok (JObject [("query", JString (op_Query o)); ("variables", v)])).

(** ** Contexts and the HTTP capability *)

(** A [context.Context] as [Run] observes it on entry: [ctx.Done()] is still
    open, or it is closed and [ctx.Err()] gives the reason. *)
Inductive Context : Type :=
| Pending
| Cancelled (err : ctxErr).

Record HTTPRequest : Type := {
  Method : string;
  URL : string;
  Close : bool;
  ReqHeader : gmap string (list string);
  ReqBody : Buffer;
  ReqCtx : Context
}.

Record HTTPResponse : Type := { StatusCode : Z; Body : Reader }.

(** The [Do] method of [http.Client] *)
Definition Doer : Type := HTTPRequest → result HTTPResponse.

(** [type Client struct].  The [Log] callback is the sink of the [Logf]
    events below; a nil [httpClient] is [None]. *)
Record Client : Type := {
  endpoint : string;
  httpClient : option Doer;
  useMultipartForm : bool;
  useMultipartRequestSpec : bool;
  closeReq : bool
}.

Definition StatusOK : Z := 200.

(** ** Observable effects *)

Inductive LogArg : Type :=
| ArgVars (v : option (gmap string any))
| ArgString (s : string)
| ArgJSON (j : json)
| ArgInt (n : Z)
| ArgHeader (h : gmap string (list string)).

(** What a call does to the outside: a line handed to [c.Log] (kept as the
    format and its arguments), or a request handed to the HTTP capability. *)
Inductive Event : Type :=
| Logf (format : string) (args : list LogArg)
| Do (r : HTTPRequest).

(** The requests that reached the HTTP capability, oldest first. *)
Definition sent (evs : list Event) : list HTTPRequest :=
  omap (λ e, match e with Do r => Some r | Logf _ _ => None end) evs.

(** How a Go function ends: it returns a value, returns an error, or panics. *)
Inductive ret (A : Type) : Type :=
| Return (a : A)
| Fail (err : error)
| Panic (msg : string).
Arguments Return {A} a.
Arguments Fail {A} err.
Arguments Panic {A} msg.

(** The response envelope.  [Data] is an interface value: nil, or the
    caller's response object, of shape [T]. *)
Record graphResponse (T : Type) : Type := {
  Data : option T;
  Errors : list graphErr
}.
Arguments Data {T} g.
Arguments Errors {T} g.

(** What [json.NewDecoder(&buf).Decode(&gr)] leaves behind: the pointer [gr],
    nil or the envelope it points to; the caller's response object, which
    the decoder writes through [gr.Data]; and the decoder's error. *)
Record Decoded (T : Type) : Type := {
  d_gr : option (graphResponse T);
  d_target : option T;
  d_err : option error
}.
Arguments d_gr {T} d.
Arguments d_target {T} d.
Arguments d_err {T} d.

(** What the Go runtime and the standard library contribute to a call: the
    shape of the caller's response object with the decoder that fills it,
    [url.Parse] as [http.NewRequest] uses it, the canonical form of header
    keys, the boundary [multipart.NewWriter] draws, and
    [http.DefaultClient]. *)
Class Platform : Type := {
  Target : Type;
  Decode : string → graphResponse Target → Decoded Target;
  ParseURL : string → option error;
  CanonicalMIMEHeaderKey : string → string;
  boundary : string;
  DefaultClient : Doer
}.

Section Client.

Context {P : Platform}.

(** The cells a call can read and write: the request behind [req], the
    object behind [resp] ([None] for a nil [resp]) and the effects so far. *)
Record World : Type := {
  w_req : Request;
  w_resp : option Target;
  w_events : list Event
}.

(** A method body: from a world, how it ends and the world it leaves. *)
Definition M (A : Type) : Type := World → ret A * World.

Definition pure {A} (a : A) : M A := λ w, (Return a, w).
Definition fail {A} (err : error) : M A := λ w, (Fail err, w).
Definition panic {A} (msg : string) : M A := λ w, (Panic msg, w).

Definition bind {A B} (m : M A) (k : A → M B) : M B :=
  λ w, match m w with
       | (Return a, w') => k a w'
       | (Fail err, w') => (Fail err, w')
       | (Panic msg, w') => (Panic msg, w')
       end.

Notation "'let*' x ':=' m 'in' k" := (bind m (λ x, k))
  (at level 10, x pattern, m at level 100, k at level 200, only parsing).
Notation "m ';;' k" := (bind m (λ _, k))
  (at level 100, k at level 200, right associativity, only parsing).

Definition get_req : M Request := λ w, (Return (w_req w), w).
Definition get_resp : M (option Target) := λ w, (Return (w_resp w), w).

Definition emit (e : Event) : M unit :=
  λ w, (Return tt,
        {| w_req := w_req w; w_resp := w_resp w;
           w_events := w_events w ++ [e] |}).

(** [c.logf(format, args...)] *)
Definition logf (format : string) (args : list LogArg) : M unit :=
  emit (Logf format args).

(** [req.body = requestBody; req.contentType = ct] *)
Definition set_body (requestBody : Buffer) (ct : string) : M unit :=
  λ w, (Return tt,
        {| w_req := {| q := q (w_req w); vars := vars (w_req w);
                       files := files (w_req w); Header := Header (w_req w);
                       body := requestBody; contentType := ct |};
           w_resp := w_resp w; w_events := w_events w |}).

Definition set_resp (t : option Target) : M unit :=
  λ w, (Return tt,
        {| w_req := w_req w; w_resp := t; w_events := w_events w |}).

(** [if err != nil { return errors.Wrap(err, msg) }] *)
Definition wrap {A} (r : result A) (msg : string) : M A :=
  match r with
  | Ok a => pure a
  | Err e => fail (errors_Wrap e msg)
  end.

(** [if err != nil { return err }] *)
Definition try {A} (r : result A) : M A :=
  match r with
  | Ok a => pure a
  | Err e => fail e
  end.

(** [io.Copy(dst, src)]: everything [src] yields, or its error. *)
Definition io_Copy (src : Reader) : result string :=
  match r_err src with
  | None => Ok (r_data src)
  | Some e => Err e
  end.

(** [http.Header.Set] and [http.Header.Add] *)
Definition Header_Set (key value : string) (h : gmap string (list string))
    : gmap string (list string) :=
  <[CanonicalMIMEHeaderKey key := [value]]> h.

Definition Header_Add (key value : string) (h : gmap string (list string))
    : gmap string (list string) :=
  <[CanonicalMIMEHeaderKey key :=
      (default [] (h !! CanonicalMIMEHeaderKey key) ++ [value])%list]> h.

(** [http.NewRequest(method, url, body)] *)
Definition http_NewRequest (method url : string) (b : Buffer)
    : result HTTPRequest :=
  match ParseURL url with
  | Some e => Err e
  | None =>
      Ok {| Method := method; URL := url; Close := false; ReqHeader := ∅;
            ReqBody := b; ReqCtx := Pending |}
  end.

(** [c.httpClient.Do(r)] *)
Definition httpClient_Do (c : Client) (r : HTTPRequest) : M HTTPResponse :=
  match httpClient c with
  | None => panic "invalid memory address or nil pointer dereference"
  | Some do => emit (Do r) ;; try (do r)
  end.

(** [func (c *Client) makeRequest(ctx, req, resp) error]; here and in the
    methods below [req] and [resp] are the cells [w_req] and [w_resp], and
    returning nil is [pure tt]. *)
Definition makeRequest (c : Client) (ctx : Context) : M unit :=
  let* req := get_req in
  let* resp := get_resp in
  let gr := {| Data := resp; Errors := [] |} in
  let* r := try (http_NewRequest "POST" (endpoint c) (body req)) in
  let hdr :=
    Header_Set "Accept" "application/json; charset=utf-8"
      (Header_Set "Content-Type" (contentType req) (ReqHeader r)) in
  let hdr :=
    foldl (λ h kv, foldl (λ h value, Header_Add kv.1 value h) h kv.2)
          hdr (map_to_list (Header req)) in
  logf ">> headers: %v" [ArgHeader hdr] ;;
  let r := {| Method := Method r; URL := URL r; Close := closeReq c;
              ReqHeader := hdr; ReqBody := ReqBody r; ReqCtx := ctx |} in
  let* res := httpClient_Do c r in
  let* buf := wrap (io_Copy (Body res)) "failed to read response body" in
  logf "<< %s" [ArgString buf] ;;
  let d := Decode buf gr in
  set_resp (d_target d) ;;
  match d_err d with
  | Some err =>
      if decide (StatusCode res ≠ StatusOK)
      then fail (ErrStatus (StatusCode res))
      else fail (errors_Wrap err "failed to decode response")
  | None =>
      match d_gr d with
      | None => panic "invalid memory address or nil pointer dereference"
      | Some gr =>
          match Errors gr with
          | e :: _ => fail (ErrGraph e)
          | [] => pure tt
          end
      end
  end.

(** [json.NewEncoder(&requestBody).Encode(requestBodyObj)] *)
Definition encode_requestBodyObj (Query : string)
    (Variables : option (gmap string any)) : result json :=
  result_bind (marshal_vars Variables) (λ v,
  Ok (JObject [("query", JString Query); ("variables", v)])).

(** [func (c *Client) runWithJSON(ctx, req, resp) error] *)
Definition runWithJSON (c : Client) (ctx : Context) : M unit :=
  let* req := get_req in
  let* requestBody :=
    wrap (encode_requestBodyObj (q req) (vars req))
         "failed to encode request body" in
  logf ">> variables: %v" [ArgVars (vars req)] ;;
  logf ">> query: %s" [ArgString (q req)] ;;
  set_body (JSONBody requestBody) "application/json; charset=utf-8" ;;
  makeRequest c ctx.

(** [writer.FormDataContentType()] *)
Definition FormDataContentType : string :=
  "multipart/form-data; boundary=" +:+ boundary.

(** One turn of the [for _, file := range req.files] loops:
    [writer.CreateFormFile] then [io.Copy(part, file.R)]. *)
Definition write_file (writer : list Part) (file : File) : M (list Part) :=
  match R file with
  | None => panic "invalid memory address or nil pointer dereference"
  | Some src =>
      let* content := wrap (io_Copy src) "failed to copy file content" in
      pure (writer ++ [FormFile (Field file) (Name file) content])
  end.

(** The whole loop; [log] tells the loop of [runMultipartRequestSpec], which
    logs each file, from that of [runWithPostFields]. *)
Fixpoint write_files (log : bool) (fs : list File) (writer : list Part)
    : M (list Part) :=
  match fs with
  | [] => pure writer
  | file :: rest =>
      let* writer := write_file writer file in
      (if log
       then logf ">> file: %s = %s"
                 [ArgString (Field file); ArgString (Name file)]
       else pure tt) ;;
      write_files log rest writer
  end.

(** [func (c *Client) runWithPostFields(ctx, req, resp) error].  The
    multipart writer writes into a [bytes.Buffer], so [WriteField],
    [CreateFormField], [CreateFormFile] and [Close] do not fail; what can
    fail is the encoding of the variables and the reading of a file. *)
Definition runWithPostFields (c : Client) (ctx : Context) : M unit :=
  let* req := get_req in
  let writer := [FormField "query" (Raw (q req))] in
  let* (writer, variablesBuf) :=
    (if decide (0 < len_vars req)%nat
     then
       let* j := wrap (marshal_vars (vars req)) "failed to encode variables" in
       pure (writer ++ [FormField "variables" (JSONText j)], ArgJSON j)
     else pure (writer, ArgString "")) in
  let* writer := write_files false (files req) writer in
  logf ">> variables: %s" [variablesBuf] ;;
  logf ">> files: %d" [ArgInt (Z.of_nat (length (files req)))] ;;
  logf ">> query: %s" [ArgString (q req)] ;;
  set_body (Multipart writer) FormDataContentType ;;
  makeRequest c ctx.

(** [func (c *Client) runMultipartRequestSpec(ctx, req, resp) error] *)
Definition runMultipartRequestSpec (c : Client) (ctx : Context) : M unit :=
  let* req := get_req in
  if decide (0 < len_vars req)%nat
  then fail (errors_New "variables not supported due to the multipart request spec https://github.com/jaydenseric/graphql-multipart-request-spec/issues/22")
  else
    let multipartRequestSpecQuery := fillMultipartRequestSpecQuery req in
    let* operations :=
      wrap (marshal_Operations (Operations multipartRequestSpecQuery))
           "failed to marshal operations" in
    let maps := marshal_Map (Map multipartRequestSpecQuery) in
    let writer := [FormField "operations" (JSONText operations)] in
    logf ">> field: %s = %s" [ArgString "operations"; ArgJSON operations] ;;
    let writer := writer ++ [FormField "map" (JSONText maps)] in
    logf ">> field: %s = %s" [ArgString "map"; ArgJSON maps] ;;
    let* writer := write_files true (files req) writer in
    set_body (Multipart writer) FormDataContentType ;;
    makeRequest c ctx.

(** [func (c *Client) Run(ctx, req, resp) error] *)
Definition Run (c : Client) (ctx : Context) : M unit :=
  match ctx with
  | Cancelled err => fail (ErrContext err)
  | Pending =>
      let* req := get_req in
      if bool_decide (0 < length (files req))%nat
         && negb (useMultipartForm c || useMultipartRequestSpec c)
      then fail (errors_New "cannot send files with PostFields option")
      else if useMultipartForm c then runWithPostFields c ctx
      else if useMultipartRequestSpec c then runMultipartRequestSpec c ctx
      else runWithJSON c ctx
  end.

(** ** Construction *)

(** [type ClientOption func(c *Client)] and the four options of the package *)
Definition ClientOption : Type := Client → Client.

Definition WithHTTPClient (httpclient : option Doer) : ClientOption :=
  λ client,
    {| endpoint := endpoint client; httpClient := httpclient;
       useMultipartForm := useMultipartForm client;
       useMultipartRequestSpec := useMultipartRequestSpec client;
       closeReq := closeReq client |}.

Definition UseMultipartForm : ClientOption :=
  λ client,
    {| endpoint := endpoint client; httpClient := httpClient client;
       useMultipartForm := true;
       useMultipartRequestSpec := useMultipartRequestSpec client;
       closeReq := closeReq client |}.

Definition UseMultipartRequestSpec : ClientOption :=
  λ client,
    {| endpoint := endpoint client; httpClient := httpClient client;
       useMultipartForm := useMultipartForm client;
       useMultipartRequestSpec := true;
       closeReq := closeReq client |}.

Definition ImmediatelyCloseReqBody : ClientOption :=
  λ client,
    {| endpoint := endpoint client; httpClient := httpClient client;
       useMultipartForm := useMultipartForm client;
       useMultipartRequestSpec := useMultipartRequestSpec client;
       closeReq := true |}.

(** [func NewClient(endpoint string, opts ...ClientOption) *Client] *)
Definition NewClient (url : string) (opts : list ClientOption) : Client :=
  let c :=
    foldl (λ c optionFunc, optionFunc c)
          {| endpoint := url; httpClient := None;
             useMultipartForm := false; useMultipartRequestSpec := false;
             closeReq := false |}
          opts in
  match httpClient c with
  | None =>
      {| endpoint := endpoint c; httpClient := Some DefaultClient;
         useMultipartForm := useMultipartForm c;
         useMultipartRequestSpec := useMultipartRequestSpec c;
         closeReq := closeReq c |}
  | Some _ => c
  end.

(** The options this package exports. *)
Inductive exported : ClientOption → Prop :=
| exported_WithHTTPClient h : exported (WithHTTPClient h)
| exported_UseMultipartForm : exported UseMultipartForm
| exported_UseMultipartRequestSpec : exported UseMultipartRequestSpec
| exported_ImmediatelyCloseReqBody : exported ImmediatelyCloseReqBody.

End Client.

(** ** Vocabulary of the properties *)

Section Vocabulary.

Context {P : Platform}.

(** The header [makeRequest] builds: the two fixed entries, then every value
    of every caller-set header. *)
Definition request_header (req : Request) : gmap string (list string) :=
  foldl (λ h kv, foldl (λ h value, Header_Add kv.1 value h) h kv.2)
        (Header_Set "Accept" "application/json; charset=utf-8"
           (Header_Set "Content-Type" (contentType req) ∅))
        (map_to_list (Header req)).

(** The request [makeRequest] hands to the HTTP capability. *)
Definition outbound (c : Client) (ctx : Context) (req : Request)
    : HTTPRequest :=
  {| Method := "POST"; URL := endpoint c; Close := closeReq c;
     ReqHeader := request_header req; ReqBody := body req; ReqCtx := ctx |}.

(** [w'] comes from [w] without any request having reached the HTTP
    capability and without the caller's response object being touched. *)
Definition quiet (w w' : World) : Prop :=
  sent (w_events w') = sent (w_events w) ∧ w_resp w' = w_resp w.

(** A computation that reaches neither the HTTP capability nor the caller's
    response object, however it ends. *)
Definition silent {A} (m : M A) : Prop := ∀ w, quiet w (m w).2.

(** A method that, from every world, either ends in an error or a panic
    with no request made, or hands over to [makeRequest] with no request
    made so far. *)
Definition hands_over (c : Client) (ctx : Context) (m : M unit) : Prop :=
  ∀ w,
    (quiet w (m w).2 ∧ (m w).1 ≠ Return tt)
    ∨ (∃ w1, quiet w w1 ∧ m w = makeRequest c ctx w1).

(** The world once a body has been staged on the request and [evs] logged. *)
Definition staged (w : World) (evs : list Event) (b : Buffer) (ct : string)
    : World :=
  {| w_req := {| q := q (w_req w); vars := vars (w_req w);
                 files := files (w_req w); Header := Header (w_req w);
                 body := b; contentType := ct |};
     w_resp := w_resp w;
     w_events := w_events w ++ evs |}.

End Vocabulary.

(** The two precondition errors: that of [Run] for files without a multipart
    option, and that of [runMultipartRequestSpec] for variables. *)
Definition files_need_multipart : error :=
  errors_New "cannot send files with PostFields option".

Definition variables_not_supported : error :=
  errors_New "variables not supported due to the multipart request spec https://github.com/jaydenseric/graphql-multipart-request-spec/issues/22".

(** The member [name] of a JSON object. *)
Fixpoint assoc (name : string) (members : list (string * json))
    : option json :=
  match members with
  | [] => None
  | (k, v) :: rest => if decide (k = name) then Some v else assoc name rest
  end.

Definition member (name : string) (j : json) : option json :=
  match j with
  | JObject members => assoc name members
  | _ => None
  end.

(** The text fields and the file parts of a multipart body. *)
Definition text_field (name : string) (parts : list Part) : list text :=
  omap (λ p, match p with
             | FormField k v => if decide (k = name) then Some v else None
             | FormFile _ _ _ => None
             end) parts.

Definition file_parts (parts : list Part) : list (string * string * string) :=
  omap (λ p, match p with
             | FormFile field filename content =>
                 Some (field, filename, content)
             | FormField _ _ => None
             end) parts.

(** A file whose reader is there and reads to the end without error. *)
Definition readable (file : File) : Prop :=
  ∃ src, R file = Some src ∧ r_err src = None.

Definition content (file : File) : string :=
  match R file with Some src => r_data src | None => "" end.

(** The part a readable file becomes. *)
Definition file_part (file : File) : Part :=
  FormFile (Field file) (Name file) (content file).

(** The line logged for a file in multipart request spec mode. *)
Definition file_log (file : File) : Event :=
  Logf ">> file: %s = %s" [ArgString (Field file); ArgString (Name file)].

(** The dotted path of the [index]-th file slot. *)
Definition path (index : nat) : string := "variables.files." +:+ Itoa index.

(** The successful class of HTTP status codes, 2xx. *)
Definition success_status (code : Z) : bool :=
  (200 <=? code) && (code <? 300).

(** ** A sample platform and sample servers *)

(** [s] between double quotes. *)
Definition quoted (s : string) : string :=
  String "034"%char (s +:+ String "034"%char "").

(** Two response bodies: an envelope whose data is a hero named R2-D2 and
    that has no errors member, and an envelope with a null hero and two
    errors, the messages being boom and second. *)
Definition body_hero : string :=
  "{" +:+ quoted "data" +:+ ":{" +:+ quoted "hero" +:+ ":{"
      +:+ quoted "name" +:+ ":" +:+ quoted "R2-D2" +:+ "}}}".

Definition body_errors : string :=
  "{" +:+ quoted "data" +:+ ":{" +:+ quoted "hero" +:+ ":null},"
      +:+ quoted "errors" +:+ ":[{" +:+ quoted "message" +:+ ":"
      +:+ quoted "boom" +:+ "},{" +:+ quoted "message" +:+ ":"
      +:+ quoted "second" +:+ "}]}".

Definition hero : json :=
  JObject [("hero", JObject [("name", JString "R2-D2")])].

(** The decoder's errors on an empty body and on a body that starts
    with [<]. *)
Definition EOF : error := ErrLib "EOF".

Definition invalid_character : error :=
  ErrLib "invalid character '<' looking for beginning of value".

(** What the decoder of [encoding/json] does on the sample bodies, on the
    empty object and on [null]; any other body is taken not to be JSON. *)
Definition sample_Decode (buf : string) (gr : graphResponse json)
    : Decoded json :=
  let found data errs :=
    {| d_gr := Some {| Data := Some data; Errors := errs |};
       d_target := match Data gr with Some _ => Some data | None => None end;
       d_err := None |} in
  if decide (buf = body_hero) then found hero []
  else if decide (buf = body_errors)
  then found (JObject [("hero", JNull)])
             [{| Message := "boom" |}; {| Message := "second" |}]
  else if decide (buf = "{}")
  then {| d_gr := Some gr; d_target := Data gr; d_err := None |}
  else if decide (buf = "null")
  then {| d_gr := None; d_target := Data gr; d_err := None |}
  else {| d_gr := Some gr; d_target := Data gr;
          d_err := Some (if decide (buf = "") then EOF
                         else invalid_character) |}.

Definition sample : Platform :=
  {| Target := json;
     Decode := sample_Decode;
     ParseURL := λ _, None;
     CanonicalMIMEHeaderKey := id;
     boundary := "c0ffee";
     DefaultClient := λ _, Err (ErrLib "connection refused") |}.

(** A server that answers every request with the same status and body. *)
Definition server (code : Z) (data : string) : Doer :=
  λ _, Ok {| StatusCode := code;
             Body := {| r_data := data; r_err := None |} |}.

Definition sample_client (do : Doer) (form spec : bool) : Client :=
  {| endpoint := "https://machinebox.io/graphql"; httpClient := Some do;
     useMultipartForm := form; useMultipartRequestSpec := spec;
     closeReq := false |}.

(** The world before a call: nothing logged, nothing sent. *)
Definition start {P : Platform} (req : Request) (resp : option Target)
    : World :=
  {| w_req := req; w_resp := resp; w_events := [] |}.

Definition reader (data : string) : option Reader :=
  Some {| r_data := data; r_err := None |}.

(** ** Vocabulary of the further properties *)

(** A call that ends in an error or in a panic. *)
Definition failed {A} (o : ret A) : Prop :=
  match o with Return _ => False | _ => True end.

Section Encodings.

Context {P : Platform}.

(** The parts of a multipart form body and of a multipart request spec body
    for a request, given the JSON of its variables or of its operations. *)
Definition form_parts (req : Request) (j : json) : list Part :=
  FormField "query" (Raw (q req))
    :: (if decide (0 < len_vars req)%nat
        then [FormField "variables" (JSONText j)] else [])
    ++ (file_part <$> files req).

Definition spec_parts (req : Request) (ops : json) : list Part :=
  FormField "operations" (JSONText ops)
    :: FormField "map"
         (JSONText (marshal_Map (Map (fillMultipartRequestSpecQuery req))))
    :: (file_part <$> files req).

(** [encoded c req b ct]: the mode of [c] accepts [req], every step of the
    encoding succeeds, and [b] and [ct] are the body and the content type
    that come out. *)
Inductive encoded (c : Client) (req : Request) : Buffer → string → Prop :=
| encoded_form j :
    useMultipartForm c = true →
    marshal_vars (vars req) = Ok j →
    Forall readable (files req) →
    encoded c req (Multipart (form_parts req j)) FormDataContentType
| encoded_spec ops :
    useMultipartForm c = false →
    useMultipartRequestSpec c = true →
    len_vars req = 0%nat →
    Forall readable (files req) →
    marshal_Operations (Operations (fillMultipartRequestSpecQuery req))
    = Ok ops →
    encoded c req (Multipart (spec_parts req ops)) FormDataContentType
| encoded_JSON j :
    useMultipartForm c = false →
    useMultipartRequestSpec c = false →
    files req = [] →
    encode_requestBodyObj (q req) (vars req) = Ok j →
    encoded c req (JSONBody j) "application/json; charset=utf-8".

(** A call that ended before [makeRequest]: in an error or a panic, the
    request as it was, nothing sent and the response object untouched. *)
Definition stopped (w : World) (out : ret unit * World) : Prop :=
  failed out.1 ∧ w_req out.2 = w_req w ∧ quiet w out.2.

End Encodings.

(** A platform like [sample] whose URL parser refuses a URL that starts
    with a colon, as [url.Parse] does for want of a scheme. *)
Definition missing_scheme : error := ErrLib "missing protocol scheme".

Definition sample_parsing : Platform :=
  {| Target := json;
     Decode := sample_Decode;
     ParseURL := λ url,
       if String.prefix ":" url then Some missing_scheme else None;
     CanonicalMIMEHeaderKey := id;
     boundary := "c0ffee";
     DefaultClient := λ _, Err (ErrLib "connection refused") |}.

(** A server that cannot be reached, and one whose answer breaks off while
    its body is read. *)
Definition connection_refused : error := ErrLib "connection refused".

Definition unreachable : Doer := λ _, Err connection_refused.

Definition unexpected_EOF : error := ErrLib "unexpected EOF".

Definition cut_off (code : Z) (data : string) : Doer :=
  λ _, Ok {| StatusCode := code;
             Body := {| r_data := data; r_err := Some unexpected_EOF |} |}.

(** A reader that fails. *)
Definition broken_reader (err : error) : option Reader :=
  Some {| r_data := ""; r_err := Some err |}.

(** * Properties *)

Section Properties.

Context {P : Platform}.

Implicit Types (c : Client) (ctx : Context) (w : World) (req : Request).

(** ** Checks made before any encoding *)

(** C7: when the cancellation signal is already set on entry, [Run] returns
    the context's error at once; the request is left as it was (nothing was
    encoded), no line is logged and nothing reaches the HTTP capability. *)
Theorem Run_cancelled_before_send c (err : ctxErr) w :
  let out := Run c (Cancelled err) w in
  out.1 = Fail (ErrContext err)
  ∧ out.2 = w
  ∧ w_req out.2 = w_req w
  ∧ sent (w_events out.2) = sent (w_events w).
Proof. by cbn. Qed.

(** C2: with a non-empty file list and neither multipart option enabled,
    [Run] changes nothing in the world, so the HTTP capability is never
    invoked, and a call whose context is still pending returns the
    precondition error. *)
Theorem Run_files_without_multipart c ctx w :
  files (w_req w) ≠ [] →
  useMultipartForm c = false →
  useMultipartRequestSpec c = false →
  (Run c ctx w).2 = w
  ∧ sent (w_events (Run c ctx w).2) = sent (w_events w)
  ∧ (ctx = Pending →
     (Run c ctx w).1
     = Fail files_need_multipart).
Proof.
  intros Hfiles Hform Hspec.
  destruct ctx as [|err]; [|by cbn].
  unfold Run, bind, get_req. cbn. rewrite Hform, Hspec. cbn.
  destruct (files (w_req w)) as [|file rest] eqn:E; [done|].
  rewrite bool_decide_eq_true_2 by (cbn; lia). by cbn.
Qed.

Lemma len_vars_Var key value req : (0 < len_vars (Var key value req))%nat.
Proof.
  unfold len_vars, Var. cbn.
  pose proof (map_size_ne_0_lookup_2
                (<[key:=value]> match vars req with
                                | Some m => m
                                | None => ∅
                                end) key) as H.
  rewrite lookup_insert_eq in H. specialize (H (mk_is_Some _ _ eq_refl)). lia.
Qed.

(** C3: in multipart request spec mode, a request that carries at least one
    variable makes [Run] change nothing in the world, so the HTTP capability
    is never invoked, and a call whose context is still pending returns the
    precondition error of that mode. *)
Theorem Run_vars_in_request_spec_mode c ctx w :
  (0 < len_vars (w_req w))%nat →
  useMultipartForm c = false →
  useMultipartRequestSpec c = true →
  (Run c ctx w).2 = w
  ∧ sent (w_events (Run c ctx w).2) = sent (w_events w)
  ∧ (ctx = Pending →
     (Run c ctx w).1
     = Fail variables_not_supported).
Proof.
  intros Hvars Hform Hspec.
  destruct ctx as [|err]; [|by cbn].
  unfold Run, bind, get_req. cbn. rewrite Hform, Hspec. cbn.
  rewrite andb_false_r.
  unfold runMultipartRequestSpec, bind, get_req. cbn.
  by rewrite decide_True.
Qed.

(** ** Construction and dispatch *)

Lemma exported_keeps_form (o : ClientOption) c :
  exported o → useMultipartForm c = true → useMultipartForm (o c) = true.
Proof. by intros [] ?. Qed.

Lemma exported_keeps_spec (o : ClientOption) c :
  exported o →
  useMultipartRequestSpec c = true → useMultipartRequestSpec (o c) = true.
Proof. by intros [] ?. Qed.

Lemma options_keep_form (opts : list ClientOption) c :
  Forall exported opts →
  useMultipartForm c = true →
  useMultipartForm (foldl (λ c optionFunc, optionFunc c) c opts) = true.
Proof.
  intros Hall. revert c.
  induction Hall as [|o opts Ho _ IH]; intros c Hc; cbn; [done|].
  by apply IH, exported_keeps_form.
Qed.

Lemma options_keep_spec (opts : list ClientOption) c :
  Forall exported opts →
  useMultipartRequestSpec c = true →
  useMultipartRequestSpec (foldl (λ c optionFunc, optionFunc c) c opts) = true.
Proof.
  intros Hall. revert c.
  induction Hall as [|o opts Ho _ IH]; intros c Hc; cbn; [done|].
  by apply IH, exported_keeps_spec.
Qed.

Lemma options_set_form (opts : list ClientOption) c :
  Forall exported opts →
  UseMultipartForm ∈ opts →
  useMultipartForm (foldl (λ c optionFunc, optionFunc c) c opts) = true.
Proof.
  intros Hall. revert c.
  induction Hall as [|o opts Ho Hall IH]; intros c Hin; cbn.
  - by apply elem_of_nil in Hin.
  - apply elem_of_cons in Hin as [<-|Hin]; [|by apply IH].
    by apply options_keep_form.
Qed.

Lemma options_set_spec (opts : list ClientOption) c :
  Forall exported opts →
  UseMultipartRequestSpec ∈ opts →
  useMultipartRequestSpec (foldl (λ c optionFunc, optionFunc c) c opts) = true.
Proof.
  intros Hall. revert c.
  induction Hall as [|o opts Ho Hall IH]; intros c Hin; cbn.
  - by apply elem_of_nil in Hin.
  - apply elem_of_cons in Hin as [<-|Hin]; [|by apply IH].
    by apply options_keep_spec.
Qed.

Lemma NewClient_flags url (opts : list ClientOption) :
  let c0 := foldl (λ c optionFunc, optionFunc c)
              {| endpoint := url; httpClient := None;
                 useMultipartForm := false; useMultipartRequestSpec := false;
                 closeReq := false |} opts in
  useMultipartForm (NewClient url opts) = useMultipartForm c0
  ∧ useMultipartRequestSpec (NewClient url opts) = useMultipartRequestSpec c0.
Proof. cbn. unfold NewClient. by destruct (httpClient _). Qed.

(** C9: a client built by [NewClient] from exported options that include both
    [UseMultipartForm] and [UseMultipartRequestSpec] has both flags set, and
    [Run] on it is the multipart form encoder [runWithPostFields] for every
    request once the cancellation check has passed: the file check cannot
    fire and [runMultipartRequestSpec] is not on the path. *)
Theorem Run_both_multipart_options url (opts : list ClientOption) ctx w :
  Forall exported opts →
  UseMultipartForm ∈ opts →
  UseMultipartRequestSpec ∈ opts →
  let c := NewClient url opts in
  useMultipartForm c = true
  ∧ useMultipartRequestSpec c = true
  ∧ Run c ctx w
    = match ctx with
      | Cancelled err => (Fail (ErrContext err), w)
      | Pending => runWithPostFields c ctx w
      end.
Proof.
  intros Hall Hform Hspec c.
  destruct (NewClient_flags url opts) as [Ef Es]. cbn in Ef, Es.
  assert (useMultipartForm c = true) as Hf.
  { subst c. rewrite Ef. by apply options_set_form. }
  assert (useMultipartRequestSpec c = true) as Hs.
  { subst c. rewrite Es. by apply options_set_spec. }
  split_and!; [done..|].
  destruct ctx as [|err]; [|done].
  unfold Run, bind, get_req. cbn. rewrite Hf. cbn.
  by rewrite andb_false_r.
Qed.

End Properties.

(** ** The operations and map fields of the multipart request spec *)

Section RequestSpec.

Implicit Types (fs : list File) (entries : gmap string (list string)).

Lemma fill_loop_placeholders index fs placeholders entries :
  (fill_loop index fs placeholders entries).1
  = placeholders ++ replicate (length fs) AnyNil.
Proof.
  revert index placeholders entries.
  induction fs as [|file rest IH]; intros index placeholders entries; cbn.
  - by rewrite app_nil_r.
  - by rewrite IH, <-app_assoc.
Qed.

(** A fieldname that no file of the loop carries keeps its entry. *)
Lemma fill_loop_lookup_other index fs placeholders entries k :
  k ∉ Field <$> fs →
  (fill_loop index fs placeholders entries).2 !! k = entries !! k.
Proof.
  revert index placeholders entries.
  induction fs as [|file rest IH]; intros index placeholders entries Hk;
    cbn; [done|].
  rewrite fmap_cons, not_elem_of_cons in Hk. destruct Hk as [Hne Hk].
  rewrite IH by done. by rewrite lookup_insert_ne.
Qed.

(** The last file that carries a fieldname decides the entry under it. *)
Lemma fill_loop_lookup_last index pre file post placeholders entries :
  Field file ∉ Field <$> post →
  (fill_loop index (pre ++ file :: post) placeholders entries).2
    !! Field file
  = Some [path (index + length pre)].
Proof.
  intros Hpost. revert index placeholders entries.
  induction pre as [|g pre IH]; intros index placeholders entries; cbn.
  - rewrite fill_loop_lookup_other by done.
    rewrite lookup_insert_eq. by rewrite Nat.add_0_r.
  - rewrite IH. by rewrite Nat.add_succ_r.
Qed.

Lemma fill_loop_dom index fs placeholders entries :
  dom (fill_loop index fs placeholders entries).2
  = dom entries ∪ list_to_set (Field <$> fs).
Proof.
  revert index placeholders entries.
  induction fs as [|file rest IH]; intros index placeholders entries; cbn.
  - by rewrite (right_id_L ∅ (∪)).
  - rewrite IH, dom_insert_L.
    rewrite (comm_L (∪) {[Field file]} (dom entries)).
    by rewrite <-(assoc_L (∪)).
Qed.

Lemma fill_loop_lookup_distinct index fs placeholders entries i file :
  NoDup (Field <$> fs) →
  fs !! i = Some file →
  (fill_loop index fs placeholders entries).2 !! Field file
  = Some [path (index + i)].
Proof.
  intros Hnodup Hi.
  pose proof (take_drop_middle fs i file Hi) as Hsplit.
  rewrite <-Hsplit in Hnodup |- *.
  rewrite fmap_app, fmap_cons in Hnodup.
  apply NoDup_app in Hnodup as (_ & _ & Hnodup).
  apply NoDup_cons in Hnodup as [Hnotin _].
  rewrite fill_loop_lookup_last by done.
  rewrite length_take_le; [done|].
  apply lookup_lt_Some in Hi. lia.
Qed.

Lemma fillMultipartRequestSpecQuery_unfold req :
  fillMultipartRequestSpecQuery req
  = {| Operations :=
         {| op_Query := q req;
            op_Variables :=
              if decide (0 < length (files req))%nat
              then Variables (replicate (length (files req)) AnyNil)
              else VariablesEmpty |};
       Map := (fill_loop 0 (files req) [] ∅).2 |}.
Proof.
  unfold fillMultipartRequestSpecQuery, Files, Query.
  pose proof (fill_loop_placeholders 0 (files req) [] ∅) as Hp.
  destruct (fill_loop 0 (files req) [] ∅) as [placeholders entries].
  cbn in Hp. by rewrite Hp.
Qed.

Lemma marshal_placeholders n :
  result_mapM marshal_any (replicate n AnyNil) = Ok (replicate n JNull).
Proof. induction n as [|n IH]; cbn; [done|]. by rewrite IH. Qed.

(** *** Members of a marshalled map *)

Lemma assoc_elem_of (members : list (string * json)) k v :
  NoDup members.*1 → (k, v) ∈ members → assoc k members = Some v.
Proof.
  induction members as [|[k' v'] rest IH]; intros Hnodup Hin; cbn.
  - by apply elem_of_nil in Hin.
  - rewrite fmap_cons in Hnodup. apply NoDup_cons in Hnodup as [Hk' Hnodup].
    apply elem_of_cons in Hin as [[= <- <-]|Hin].
    + by rewrite decide_True.
    + rewrite decide_False; [by apply IH|].
      intros ->. apply Hk'. apply list_elem_of_fmap. by exists (k, v).
Qed.

Lemma sorted_members_Permutation {A} (m : gmap string A) :
  sorted_members m ≡ₚ map_to_list m.
Proof. apply merge_sort_Permutation. Qed.

Lemma marshalled_keys {A B} (g : A → B) (l : list (string * A)) :
  (prod_map id g <$> l).*1 = l.*1.
Proof. induction l as [|[k v] l IH]; cbn; [done|]. by rewrite IH. Qed.

Lemma marshal_Map_members entries :
  ∃ members,
    marshal_Map entries = JObject members
    ∧ length members = size entries
    ∧ ∀ k paths,
        entries !! k = Some paths →
        assoc k members = Some (JArray (JString <$> paths)).
Proof.
  eexists. split; [reflexivity|]. split.
  - rewrite length_fmap, sorted_members_Permutation.
    apply length_map_to_list.
  - intros k paths Hk.
    apply (assoc_elem_of _ k (JArray (JString <$> paths))).
    + rewrite marshalled_keys, sorted_members_Permutation.
      apply NoDup_fst_map_to_list.
    + apply list_elem_of_fmap. exists (k, paths). split; [done|].
      rewrite sorted_members_Permutation. by apply elem_of_map_to_list.
Qed.

(** Whatever the fieldnames, the map has one entry per distinct fieldname. *)
Lemma fillMultipartRequestSpecQuery_dom req :
  dom (Map (fillMultipartRequestSpecQuery req))
  = list_to_set (Field <$> files req).
Proof.
  rewrite fillMultipartRequestSpecQuery_unfold. cbn.
  by rewrite fill_loop_dom, dom_empty_L, (left_id_L ∅ (∪)).
Qed.

Lemma marshal_Operations_total req :
  ∃ ops,
    marshal_Operations (Operations (fillMultipartRequestSpecQuery req))
    = Ok ops.
Proof.
  rewrite fillMultipartRequestSpecQuery_unfold. cbn.
  unfold marshal_Operations, marshal_specVariables, marshal_slice. cbn.
  case_decide; [|by eexists].
  rewrite marshal_placeholders. by eexists.
Qed.

End RequestSpec.

(** ** Effects of the encoders *)

Section Effects.

Context {P : Platform}.

Implicit Types (c : Client) (ctx : Context) (w : World) (req : Request).

Lemma sent_app evs evs' : sent (evs ++ evs') = sent evs ++ sent evs'.
Proof. apply omap_app. Qed.

Lemma sent_Logf evs format args : sent (evs ++ [Logf format args]) = sent evs.
Proof. rewrite sent_app. cbn. by rewrite app_nil_r. Qed.

Lemma sent_Do evs r : sent (evs ++ [Do r]) = sent evs ++ [r].
Proof. by rewrite sent_app. Qed.

Lemma quiet_refl w : quiet w w.
Proof. by split. Qed.

Lemma quiet_trans w1 w2 w3 : quiet w1 w2 → quiet w2 w3 → quiet w1 w3.
Proof. intros [? ?] [? ?]. split; congruence. Qed.

(** *** Silent computations *)

Create HintDb silent discriminated.

Lemma silent_pure {A} (a : A) : silent (pure a).
Proof. intros w. apply quiet_refl. Qed.

Lemma silent_fail {A} err : silent (fail (A:=A) err).
Proof. intros w. apply quiet_refl. Qed.

Lemma silent_panic {A} msg : silent (panic (A:=A) msg).
Proof. intros w. apply quiet_refl. Qed.

Lemma silent_get_req : silent get_req.
Proof. intros w. apply quiet_refl. Qed.

Lemma silent_logf format args : silent (logf format args).
Proof. intros w. split; [apply sent_Logf|done]. Qed.

Lemma silent_set_body b ct : silent (set_body b ct).
Proof. intros w. by split. Qed.

Lemma silent_wrap {A} (r : result A) msg : silent (wrap r msg).
Proof. destruct r; [apply silent_pure|apply silent_fail]. Qed.

Lemma silent_bind {A B} (m : M A) (k : A → M B) :
  silent m → (∀ a, silent (k a)) → silent (bind m k).
Proof.
  intros Hm Hk w. unfold bind. specialize (Hm w).
  destruct (m w) as [[a|err|msg] w1]; cbn in *; [|done..].
  eapply quiet_trans; [done|apply Hk].
Qed.

#[local] Hint Resolve silent_pure silent_fail silent_panic silent_get_req
  silent_logf silent_set_body silent_wrap : silent.

Lemma silent_write_file writer file : silent (write_file writer file).
Proof.
  unfold write_file. destruct (R file); [|auto with silent].
  apply silent_bind; auto with silent.
Qed.

Lemma silent_write_files log fs writer : silent (write_files log fs writer).
Proof.
  revert writer. induction fs as [|file rest IH]; intros writer; cbn.
  - auto with silent.
  - apply silent_bind; [apply silent_write_file|]. intros writer'.
    apply silent_bind; [|by intros _].
    destruct log; auto with silent.
Qed.

#[local] Hint Resolve silent_write_file silent_write_files : silent.

(** *** Methods that end in [makeRequest] *)

Lemma hands_over_makeRequest c ctx : hands_over c ctx (makeRequest c ctx).
Proof. intros w. right. exists w. split; [apply quiet_refl|done]. Qed.

Lemma hands_over_fail c ctx err : hands_over c ctx (fail err).
Proof. intros w. left. split; [apply quiet_refl|done]. Qed.

Lemma hands_over_bind {A} c ctx (m : M A) (k : A → M unit) :
  silent m → (∀ a, hands_over c ctx (k a)) → hands_over c ctx (bind m k).
Proof.
  intros Hm Hk w. unfold bind. specialize (Hm w).
  destruct (m w) as [[a|err|msg] w1]; cbn in *; [|by left..].
  destruct (Hk a w1) as [[Hq Hne]|(w2 & Hq & Heq)].
  - left. split; [by eapply quiet_trans|done].
  - right. exists w2. split; [by eapply quiet_trans|done].
Qed.

(** Walks down a chain of binds whose links are silent. *)
Ltac hand_over :=
  repeat lazymatch goal with
    | |- hands_over _ _ (makeRequest _ _) => apply hands_over_makeRequest
    | |- hands_over _ _ (fail _) => apply hands_over_fail
    | |- hands_over _ _ (bind _ _) =>
        apply hands_over_bind; [auto with silent|intros ?; cbv beta]
    end.

Lemma hands_over_runWithJSON c ctx : hands_over c ctx (runWithJSON c ctx).
Proof. unfold runWithJSON. hand_over. Qed.

Lemma hands_over_runWithPostFields c ctx :
  hands_over c ctx (runWithPostFields c ctx).
Proof.
  unfold runWithPostFields.
  apply hands_over_bind; [auto with silent|intros req].
  apply hands_over_bind.
  { case_decide; [|auto with silent].
    apply silent_bind; auto with silent. }
  intros [writer variablesBuf]. hand_over.
Qed.

Lemma hands_over_runMultipartRequestSpec c ctx :
  hands_over c ctx (runMultipartRequestSpec c ctx).
Proof.
  unfold runMultipartRequestSpec.
  apply hands_over_bind; [auto with silent|intros req].
  case_decide; [apply hands_over_fail|]. cbv zeta. hand_over.
Qed.

Lemma hands_over_Run c ctx : hands_over c ctx (Run c ctx).
Proof.
  unfold Run. destruct ctx as [|err]; [|apply hands_over_fail].
  apply hands_over_bind; [auto with silent|intros req].
  destruct (_ && _); [apply hands_over_fail|].
  destruct (useMultipartForm c); [apply hands_over_runWithPostFields|].
  destruct (useMultipartRequestSpec c);
    [apply hands_over_runMultipartRequestSpec|apply hands_over_runWithJSON].
Qed.

(** *** What [makeRequest] does *)

Lemma makeRequest_invalid_url c ctx w e :
  ParseURL (endpoint c) = Some e → makeRequest c ctx w = (Fail e, w).
Proof.
  intros Hurl.
  unfold makeRequest, bind, get_req, get_resp, try, http_NewRequest.
  cbn. by rewrite Hurl.
Qed.

Lemma makeRequest_no_client c ctx w :
  httpClient c = None →
  quiet w (makeRequest c ctx w).2 ∧ (makeRequest c ctx w).1 ≠ Return tt.
Proof.
  intros Hnil.
  unfold makeRequest, bind, get_req, get_resp, try, http_NewRequest,
    httpClient_Do.
  cbn. destruct (ParseURL (endpoint c)); cbn; [by split|].
  rewrite Hnil. cbn. split; [|done]. split; [apply sent_Logf|done].
Qed.

Lemma makeRequest_unfold c ctx w do :
  ParseURL (endpoint c) = None →
  httpClient c = Some do →
  makeRequest c ctx w
  = let r := outbound c ctx (w_req w) in
    let w1 :=
      {| w_req := w_req w; w_resp := w_resp w;
         w_events :=
           (w_events w
              ++ [Logf ">> headers: %v" [ArgHeader (request_header (w_req w))]])
             ++ [Do r] |} in
    match do r with
    | Err e => (Fail e, w1)
    | Ok res =>
        match io_Copy (Body res) with
        | Err e => (Fail (errors_Wrap e "failed to read response body"), w1)
        | Ok buf =>
            let d := Decode buf {| Data := w_resp w; Errors := [] |} in
            (match d_err d with
             | Some err =>
                 if decide (StatusCode res ≠ StatusOK)
                 then Fail (ErrStatus (StatusCode res))
                 else Fail (errors_Wrap err "failed to decode response")
             | None =>
                 match d_gr d with
                 | None =>
                     Panic "invalid memory address or nil pointer dereference"
                 | Some gr =>
                     match Errors gr with
                     | [] => Return tt
                     | e :: _ => Fail (ErrGraph e)
                     end
                 end
             end,
             {| w_req := w_req w; w_resp := d_target d;
                w_events := w_events w1 ++ [Logf "<< %s" [ArgString buf]] |})
        end
    end.
Proof.
  intros Hurl Hclient.
  unfold makeRequest, bind, get_req, get_resp, try, http_NewRequest,
    httpClient_Do.
  cbn. rewrite Hurl. cbn. rewrite Hclient. cbn.
  fold (request_header (w_req w)). fold (outbound c ctx (w_req w)).
  destruct (do _) as [res|e]; cbn; [|done].
  destruct (io_Copy (Body res)) as [buf|e]; cbn; [|done].
  destruct (d_err _); cbn.
  - by case_decide.
  - destruct (d_gr _) as [gr|]; [|done]. by destruct (Errors gr).
Qed.

Lemma makeRequest_sent c ctx w do :
  ParseURL (endpoint c) = None →
  httpClient c = Some do →
  sent (w_events (makeRequest c ctx w).2)
  = sent (w_events w) ++ [outbound c ctx (w_req w)]
  ∧ w_req (makeRequest c ctx w).2 = w_req w.
Proof.
  intros Hurl Hclient. rewrite (makeRequest_unfold c ctx w do) by done. cbn.
  destruct (do _) as [res|e]; cbn; [|by rewrite sent_Do, sent_Logf].
  destruct (io_Copy (Body res)) as [buf|e]; cbn;
    by rewrite ?sent_Logf, sent_Do, sent_Logf.
Qed.

Lemma not_sent (l : list HTTPRequest) r : l ++ [r] ≠ l.
Proof.
  intros H. apply (f_equal length) in H. rewrite length_app in H. cbn in H.
  lia.
Qed.

(** Once a request has been sent and answered and the answer read, the
    decoder's findings and the status decide how the call ends. *)
Lemma makeRequest_answered c ctx w do r res buf :
  httpClient c = Some do →
  sent (w_events (makeRequest c ctx w).2) = sent (w_events w) ++ [r] →
  do r = Ok res →
  io_Copy (Body res) = Ok buf →
  let d := Decode buf {| Data := w_resp w; Errors := [] |} in
  (makeRequest c ctx w).1
  = match d_err d with
    | Some err =>
        if decide (StatusCode res ≠ StatusOK)
        then Fail (ErrStatus (StatusCode res))
        else Fail (errors_Wrap err "failed to decode response")
    | None =>
        match d_gr d with
        | None => Panic "invalid memory address or nil pointer dereference"
        | Some gr =>
            match Errors gr with
            | [] => Return tt
            | e :: _ => Fail (ErrGraph e)
            end
        end
    end
  ∧ w_resp (makeRequest c ctx w).2 = d_target d.
Proof.
  intros Hclient Hsent Hdo Hread.
  destruct (ParseURL (endpoint c)) as [e|] eqn:Hurl.
  { rewrite (makeRequest_invalid_url c ctx w e) in Hsent by done.
    cbn in Hsent. symmetry in Hsent. by apply not_sent in Hsent. }
  destruct (makeRequest_sent c ctx w do Hurl Hclient) as [Hsent' _].
  rewrite Hsent in Hsent'. apply app_inj_tail in Hsent' as [_ ->].
  rewrite (makeRequest_unfold c ctx w do) by done. cbn.
  by rewrite Hdo, Hread.
Qed.

(** The same for the whole call, whatever the encoding mode. *)
Lemma Run_answered c ctx w do r res buf :
  httpClient c = Some do →
  sent (w_events (Run c ctx w).2) = sent (w_events w) ++ [r] →
  do r = Ok res →
  io_Copy (Body res) = Ok buf →
  let d := Decode buf {| Data := w_resp w; Errors := [] |} in
  (Run c ctx w).1
  = match d_err d with
    | Some err =>
        if decide (StatusCode res ≠ StatusOK)
        then Fail (ErrStatus (StatusCode res))
        else Fail (errors_Wrap err "failed to decode response")
    | None =>
        match d_gr d with
        | None => Panic "invalid memory address or nil pointer dereference"
        | Some gr =>
            match Errors gr with
            | [] => Return tt
            | e :: _ => Fail (ErrGraph e)
            end
        end
    end
  ∧ w_resp (Run c ctx w).2 = d_target d.
Proof.
  intros Hclient Hsent Hdo Hread.
  destruct (hands_over_Run c ctx w) as [[[Hq _] _]|(w1 & [Hq Hresp] & Heq)].
  { rewrite Hq in Hsent. symmetry in Hsent. by apply not_sent in Hsent. }
  rewrite Heq in Hsent |- *. rewrite <-Hq in Hsent. rewrite <-Hresp.
  by apply (makeRequest_answered c ctx w1 do r res buf).
Qed.

End Effects.

(** ** Reconciling the decoded response with the HTTP status *)

Section Reconciliation.

Context {P : Platform}.

Implicit Types (c : Client) (ctx : Context) (w : World).

(** C5, as amended: when a request was sent and answered, the answer read,
    and decoding the body as the envelope fails, [Run] returns the error
    that carries the status code whenever the status is anything but 200
    (other 2xx statuses included), and the decode failure itself, wrapped
    as "failed to decode response", when the status is exactly 200. *)
Theorem Run_decode_failure c ctx w (do : Doer) r res buf err :
  httpClient c = Some do →
  sent (w_events (Run c ctx w).2) = sent (w_events w) ++ [r] →
  do r = Ok res →
  io_Copy (Body res) = Ok buf →
  d_err (Decode buf {| Data := w_resp w; Errors := [] |}) = Some err →
  (StatusCode res ≠ 200 →
   (Run c ctx w).1 = Fail (ErrStatus (StatusCode res)))
  ∧ (StatusCode res = 200 →
     (Run c ctx w).1 = Fail (errors_Wrap err "failed to decode response")).
Proof.
  intros Hclient Hsent Hdo Hread Hdec.
  destruct (Run_answered c ctx w do r res buf Hclient Hsent Hdo Hread)
    as [-> _].
  rewrite Hdec. unfold StatusOK. split; intros Hcode.
  - by rewrite decide_True.
  - by rewrite decide_False by (by intros ?).
Qed.

(** C6, as amended: when a request was sent and answered and the body
    decodes into an envelope whose error list is not empty, [Run] returns
    the first element of that list as its error, whose text is "graphql: "
    followed by the element's message, whatever the decoder stored in the
    caller's response object; and [Run] returns no error only if decoding
    succeeded with an empty error list. *)
Theorem Run_server_errors c ctx w (do : Doer) r res buf :
  httpClient c = Some do →
  sent (w_events (Run c ctx w).2) = sent (w_events w) ++ [r] →
  do r = Ok res →
  io_Copy (Body res) = Ok buf →
  let d := Decode buf {| Data := w_resp w; Errors := [] |} in
  (∀ gr e rest,
     d_err d = None →
     d_gr d = Some gr →
     Errors gr = e :: rest →
     (Run c ctx w).1 = Fail (ErrGraph e)
     ∧ Error (ErrGraph e) = "graphql: " +:+ Message e
     ∧ w_resp (Run c ctx w).2 = d_target d)
  ∧ ((Run c ctx w).1 = Return tt →
     d_err d = None ∧ ∃ gr, d_gr d = Some gr ∧ Errors gr = []).
Proof.
  intros Hclient Hsent Hdo Hread d.
  destruct (Run_answered c ctx w do r res buf Hclient Hsent Hdo Hread)
    as [Hout Hresp].
  fold d in Hout, Hresp. split.
  - intros gr e rest Herr Hgr Herrors.
    rewrite Hout, Herr, Hgr, Herrors. by split_and!.
  - rewrite Hout. destruct (d_err d) as [err|].
    + by case_decide.
    + destruct (d_gr d) as [gr|]; [|done].
      destruct (Errors gr) as [|e rest] eqn:Herrors; [|done].
      intros _. split; [done|]. by exists gr.
Qed.

(** C10: when a request was sent and answered and the body decodes into an
    envelope with an empty error list, [Run] returns no error; the status
    code of the answer plays no part. *)
Theorem Run_success_whatever_status c ctx w (do : Doer) r res buf gr :
  httpClient c = Some do →
  sent (w_events (Run c ctx w).2) = sent (w_events w) ++ [r] →
  do r = Ok res →
  io_Copy (Body res) = Ok buf →
  d_err (Decode buf {| Data := w_resp w; Errors := [] |}) = None →
  d_gr (Decode buf {| Data := w_resp w; Errors := [] |}) = Some gr →
  Errors gr = [] →
  (Run c ctx w).1 = Return tt.
Proof.
  intros Hclient Hsent Hdo Hread Herr Hgr Herrors.
  destruct (Run_answered c ctx w do r res buf Hclient Hsent Hdo Hread)
    as [-> _].
  by rewrite Herr, Hgr, Herrors.
Qed.

(** A body that is the JSON value [null] resets the envelope pointer: the
    decoder reports no error and the read of [gr.Errors] panics. *)
Lemma Run_null_envelope c ctx w (do : Doer) r res buf :
  httpClient c = Some do →
  sent (w_events (Run c ctx w).2) = sent (w_events w) ++ [r] →
  do r = Ok res →
  io_Copy (Body res) = Ok buf →
  d_err (Decode buf {| Data := w_resp w; Errors := [] |}) = None →
  d_gr (Decode buf {| Data := w_resp w; Errors := [] |}) = None →
  (Run c ctx w).1
  = Panic "invalid memory address or nil pointer dereference".
Proof.
  intros Hclient Hsent Hdo Hread Herr Hgr.
  destruct (Run_answered c ctx w do r res buf Hclient Hsent Hdo Hread)
    as [-> _].
  by rewrite Herr, Hgr.
Qed.

End Reconciliation.

(** ** The bodies the encoders stage and send *)

Section Bodies.

Context {P : Platform}.

Implicit Types (c : Client) (ctx : Context) (w : World) (req : Request).

Lemma makeRequest_keeps_req c ctx w : w_req (makeRequest c ctx w).2 = w_req w.
Proof.
  destruct (ParseURL (endpoint c)) as [e|] eqn:Hurl.
  { by rewrite (makeRequest_invalid_url c ctx w e). }
  destruct (httpClient c) as [do|] eqn:Hclient.
  { by destruct (makeRequest_sent c ctx w do Hurl Hclient). }
  unfold makeRequest, bind, get_req, get_resp, try, http_NewRequest,
    httpClient_Do.
  cbn. rewrite Hurl. cbn. by rewrite Hclient.
Qed.

(** The content type set first stays at the head of its header entry. *)
Lemma Header_Add_keeps_head key value k v (h : gmap string (list string)) :
  (∃ more, h !! k = Some (v :: more)) →
  ∃ more, Header_Add key value h !! k = Some (v :: more).
Proof.
  intros [more Hk]. unfold Header_Add.
  destruct (decide (CanonicalMIMEHeaderKey key = k)) as [->|Hne].
  - rewrite lookup_insert_eq, Hk. cbn. by eexists.
  - rewrite lookup_insert_ne by done. by eexists.
Qed.

Lemma request_header_content_type req :
  CanonicalMIMEHeaderKey "Accept" ≠ CanonicalMIMEHeaderKey "Content-Type" →
  ∃ more,
    request_header req !! CanonicalMIMEHeaderKey "Content-Type"
    = Some (contentType req :: more).
Proof.
  intros Hne. unfold request_header.
  generalize (map_to_list (Header req)).
  assert (∃ more,
            Header_Set "Accept" "application/json; charset=utf-8"
              (Header_Set "Content-Type" (contentType req) ∅)
              !! CanonicalMIMEHeaderKey "Content-Type"
            = Some (contentType req :: more)) as Hinit.
  { exists []. unfold Header_Set.
    by rewrite lookup_insert_ne, lookup_insert_eq. }
  revert Hinit. generalize (Header_Set "Accept" "application/json; charset=utf-8"
                    (Header_Set "Content-Type" (contentType req) ∅)).
  intros h Hh l. revert h Hh.
  induction l as [|[key values] l IH]; intros h Hh; cbn; [done|].
  apply IH. clear IH. revert h Hh.
  induction values as [|value values IH]; intros h Hh; cbn; [done|].
  by apply IH, Header_Add_keeps_head.
Qed.

(** *** JSON mode *)

Lemma runWithJSON_unfold c ctx w j :
  encode_requestBodyObj (q (w_req w)) (vars (w_req w)) = Ok j →
  runWithJSON c ctx w
  = makeRequest c ctx
      (staged w [Logf ">> variables: %v" [ArgVars (vars (w_req w))];
                 Logf ">> query: %s" [ArgString (q (w_req w))]]
              (JSONBody j) "application/json; charset=utf-8").
Proof.
  intros Henc. unfold runWithJSON, bind, get_req, wrap. cbn.
  rewrite Henc. cbn. unfold staged. by rewrite <-app_assoc.
Qed.

Lemma Run_JSON_mode c w :
  useMultipartForm c = false →
  useMultipartRequestSpec c = false →
  files (w_req w) = [] →
  Run c Pending w = runWithJSON c Pending w.
Proof.
  intros Hform Hspec Hfiles. unfold Run, bind, get_req. cbn.
  by rewrite Hform, Hspec, Hfiles.
Qed.

Lemma encode_without_variables query (vs : option (gmap string any)) :
  vs = None ∨ vs = Some ∅ →
  encode_requestBodyObj query vs
  = Ok (JObject [("query", JString query);
                 ("variables",
                  match vs with None => JNull | Some _ => JObject [] end)]).
Proof.
  intros [->| ->]; [done|].
  unfold encode_requestBodyObj, marshal_vars, sorted_members.
  by rewrite map_to_list_empty.
Qed.

(** C1, as amended: for a request whose variable mapping was never written
    or is empty, the JSON mode encoder produces a single JSON object whose
    [variables] member is never omitted: it is [null] when the mapping was
    never written and the empty object when the mapping exists and is
    empty; next to it stands the [query] string member, and the content type
    is [application/json; charset=utf-8].  That object is the body of the
    request handed to the HTTP capability, and [Run] is this encoder for a
    request without files on a client with neither multipart option. *)
Theorem runWithJSON_without_variables c ctx w :
  vars (w_req w) = None ∨ vars (w_req w) = Some ∅ →
  let out := runWithJSON c ctx w in
  let variables :=
    match vars (w_req w) with None => JNull | Some _ => JObject [] end in
  let object :=
    JObject [("query", JString (q (w_req w))); ("variables", variables)] in
  body (w_req out.2) = JSONBody object
  ∧ contentType (w_req out.2) = "application/json; charset=utf-8"
  ∧ member "query" object = Some (JString (q (w_req w)))
  ∧ member "variables" object = Some variables
  ∧ (∀ do : Doer,
       ParseURL (endpoint c) = None →
       httpClient c = Some do →
       ∃ r,
         sent (w_events out.2) = sent (w_events w) ++ [r]
         ∧ ReqBody r = JSONBody object
         ∧ (CanonicalMIMEHeaderKey "Accept"
              ≠ CanonicalMIMEHeaderKey "Content-Type" →
            ∃ more,
              ReqHeader r !! CanonicalMIMEHeaderKey "Content-Type"
              = Some ("application/json; charset=utf-8" :: more)))
  ∧ (useMultipartForm c = false →
     useMultipartRequestSpec c = false →
     files (w_req w) = [] →
     Run c Pending w = runWithJSON c Pending w).
Proof.
  intros Hvars out variables object. subst out.
  rewrite (runWithJSON_unfold c ctx w object)
    by (by apply encode_without_variables).
  match goal with |- context [makeRequest c ctx ?w0] => set (w1 := w0) end.
  rewrite makeRequest_keeps_req.
  split_and!; [done..| |by apply Run_JSON_mode].
  intros do Hurl Hclient.
  destruct (makeRequest_sent c ctx w1 do Hurl Hclient) as [Hsent _].
  exists (outbound c ctx (w_req w1)). split; [|split].
  - rewrite Hsent. subst w1. cbn. by rewrite sent_app, app_nil_r.
  - done.
  - intros Hne. by apply (request_header_content_type (w_req w1)).
Qed.

(** *** Multipart form mode *)

Lemma write_file_readable writer file w :
  readable file →
  write_file writer file w = (Return (writer ++ [file_part file]), w).
Proof.
  intros (src & Hsrc & Herr).
  unfold write_file, file_part, content, io_Copy. rewrite Hsrc, Herr. done.
Qed.

Lemma write_files_readable fs writer w :
  Forall readable fs →
  write_files false fs writer w = (Return (writer ++ (file_part <$> fs)), w).
Proof.
  intros Hall. revert writer.
  induction Hall as [|file rest Hfile _ IH]; intros writer; cbn.
  - by rewrite app_nil_r.
  - unfold bind. rewrite write_file_readable by done. cbn.
    rewrite IH. by rewrite <-app_assoc.
Qed.

Lemma text_field_app name (l1 l2 : list Part) :
  text_field name (l1 ++ l2) = text_field name l1 ++ text_field name l2.
Proof. apply omap_app. Qed.

Lemma text_field_file_parts name fs : text_field name (file_part <$> fs) = [].
Proof. by induction fs. Qed.

Lemma file_parts_file_parts fs :
  file_parts (file_part <$> fs)
  = (λ file, (Field file, Name file, content file)) <$> fs.
Proof. induction fs as [|file rest IH]; [done|]. cbn. f_equal. exact IH. Qed.

Lemma Run_multipart_form_mode c w :
  useMultipartForm c = true →
  Run c Pending w = runWithPostFields c Pending w.
Proof.
  intros Hform. unfold Run, bind, get_req. cbn. rewrite Hform. cbn.
  by rewrite andb_false_r.
Qed.

Lemma runWithPostFields_unfold c ctx w j :
  marshal_vars (vars (w_req w)) = Ok j →
  Forall readable (files (w_req w)) →
  let req := w_req w in
  runWithPostFields c ctx w
  = makeRequest c ctx
      (staged w
         [Logf ">> variables: %s"
            [if decide (0 < len_vars req)%nat
             then ArgJSON j else ArgString ""];
          Logf ">> files: %d" [ArgInt (Z.of_nat (length (files req)))];
          Logf ">> query: %s" [ArgString (q req)]]
         (Multipart
            (FormField "query" (Raw (q req))
               :: (if decide (0 < len_vars req)%nat
                   then [FormField "variables" (JSONText j)] else [])
               ++ (file_part <$> files req)))
         FormDataContentType).
Proof.
  intros Hvars Hfiles req. subst req.
  unfold runWithPostFields, bind, get_req. cbn.
  case_decide.
  - unfold bind, wrap. rewrite Hvars. cbn.
    rewrite write_files_readable by done. cbn.
    unfold staged. by rewrite <-!app_assoc.
  - cbn. rewrite write_files_readable by done. cbn.
    unfold staged. by rewrite <-!app_assoc.
Qed.

(** C8: when the variables can be serialised and every file can be read,
    the multipart form encoder produces a body made of the [query] text
    field holding the query, then the [variables] text field holding the
    serialised mapping if and only if the mapping is not empty, then one file
    part per attachment, in attachment order, with the attachment's
    fieldname, filename and content.  That body is the one handed to the
    HTTP capability, and [Run] is this encoder on a client with the multipart
    form option. *)
Theorem runWithPostFields_parts c ctx w j :
  marshal_vars (vars (w_req w)) = Ok j →
  Forall readable (files (w_req w)) →
  let req := w_req w in
  let out := runWithPostFields c ctx w in
  ∃ parts,
    body (w_req out.2) = Multipart parts
    ∧ contentType (w_req out.2) = "multipart/form-data; boundary=" +:+ boundary
    ∧ text_field "query" parts = [Raw (q req)]
    ∧ text_field "variables" parts
      = (if decide (0 < len_vars req)%nat then [JSONText j] else [])
    ∧ ((∃ v, v ∈ text_field "variables" parts) ↔ (0 < len_vars req)%nat)
    ∧ file_parts parts
      = (λ file, (Field file, Name file, content file)) <$> files req
    ∧ length parts
      = ((if decide (0 < len_vars req)%nat then 2 else 1)
         + length (files req))%nat
    ∧ (∀ do : Doer,
         ParseURL (endpoint c) = None →
         httpClient c = Some do →
         ∃ r,
           sent (w_events out.2) = sent (w_events w) ++ [r]
           ∧ ReqBody r = Multipart parts)
    ∧ (useMultipartForm c = true →
       Run c Pending w = runWithPostFields c Pending w).
Proof.
  intros Hvars Hfiles req out. subst req out.
  rewrite (runWithPostFields_unfold c ctx w j) by done. cbv zeta.
  match goal with |- context [makeRequest c ctx ?w0] => set (w1 := w0) end.
  rewrite makeRequest_keeps_req.
  exists (([FormField "query" (Raw (q (w_req w)))]
             ++ (if decide (0 < len_vars (w_req w))%nat
                 then [FormField "variables" (JSONText j)] else []))
            ++ (file_part <$> files (w_req w))).
  split; [reflexivity|]. split; [done|].
  rewrite !text_field_app, !text_field_file_parts, !app_nil_r.
  unfold file_parts. rewrite !omap_app.
  fold (file_parts (file_part <$> files (w_req w))).
  rewrite file_parts_file_parts, !length_app, length_fmap.
  split_and!.
  - by case_decide.
  - by case_decide.
  - case_decide.
    + split; [done|]. intros _. eexists. apply list_elem_of_here.
    + split; [|lia]. intros [v Hv]. by apply elem_of_nil in Hv.
  - by case_decide.
  - by case_decide.
  - intros do Hurl Hclient.
    destruct (makeRequest_sent c ctx w1 do Hurl Hclient) as [Hsent _].
    exists (outbound c ctx (w_req w1)). split; [|reflexivity].
    rewrite Hsent. subst w1. cbn. by rewrite sent_app, app_nil_r.
  - apply Run_multipart_form_mode.
Qed.

(** *** Multipart request spec mode *)

Lemma write_files_logged fs writer w :
  Forall readable fs →
  write_files true fs writer w
  = (Return (writer ++ (file_part <$> fs)),
     {| w_req := w_req w; w_resp := w_resp w;
        w_events := w_events w ++ (file_log <$> fs) |}).
Proof.
  intros Hall. revert writer w.
  induction Hall as [|file rest Hfile _ IH]; intros writer w; cbn.
  - rewrite !app_nil_r. by destruct w.
  - unfold bind. rewrite write_file_readable by done. cbn.
    rewrite IH. cbn. by rewrite <-!app_assoc.
Qed.

Lemma runMultipartRequestSpec_fields c ctx w :
  len_vars (w_req w) = 0%nat →
  Forall readable (files (w_req w)) →
  let query := fillMultipartRequestSpecQuery (w_req w) in
  ∃ ops,
    marshal_Operations (Operations query) = Ok ops
    ∧ body (w_req (runMultipartRequestSpec c ctx w).2)
      = Multipart (FormField "operations" (JSONText ops)
                     :: FormField "map" (JSONText (marshal_Map (Map query)))
                     :: (file_part <$> files (w_req w))).
Proof.
  intros Hvars Hfiles query.
  destruct (marshal_Operations_total (w_req w)) as [ops Hops].
  exists ops. split; [done|].
  subst query.
  unfold runMultipartRequestSpec. unfold bind at 1. unfold get_req.
  cbv beta iota zeta. rewrite decide_False by lia.
  unfold bind at 1. rewrite Hops. unfold wrap, pure. cbv beta iota.
  unfold bind, logf, emit, set_body. cbv beta iota.
  rewrite write_files_logged by done. cbv beta iota.
  by rewrite makeRequest_keeps_req.
Qed.

(** C4, as amended: for a request whose N files carry pairwise distinct
    fieldnames, the map of the multipart request spec query has exactly N
    entries, the entry of the i-th file being the one-element list
    [variables.files.<i>] under that file's fieldname, both in the Go map and
    in the JSON object marshalled from it; whatever the fieldnames, the
    operations carry the query and, when N > 0, a files list of N null
    placeholders, and when N = 0 the empty object, with an empty map.  For
    a request without variables whose files can be read, these two JSON
    texts are the [operations] and [map] fields that open the body the
    multipart request spec encoder stages, ahead of the file parts. *)
Theorem fillMultipartRequestSpecQuery_distinct_fields req :
  NoDup (Field <$> files req) →
  let query := fillMultipartRequestSpecQuery req in
  let N := length (files req) in
  size (Map query) = N
  ∧ (∀ i file,
       files req !! i = Some file →
       Map query !! Field file = Some [path i])
  ∧ (∃ members,
       marshal_Map (Map query) = JObject members
       ∧ length members = N
       ∧ ∀ i file,
           files req !! i = Some file →
           assoc (Field file) members = Some (JArray [JString (path i)]))
  ∧ ((0 < N)%nat →
     marshal_Operations (Operations query)
     = Ok (JObject [("query", JString (q req));
                    ("variables",
                     JObject [("files", JArray (replicate N JNull))])]))
  ∧ (N = 0%nat →
     marshal_Operations (Operations query)
     = Ok (JObject [("query", JString (q req)); ("variables", JObject [])])
     ∧ marshal_Map (Map query) = JObject [])
  ∧ (∀ c ctx w,
       w_req w = req →
       len_vars req = 0%nat →
       Forall readable (files req) →
       ∃ ops,
         marshal_Operations (Operations query) = Ok ops
         ∧ body (w_req (runMultipartRequestSpec c ctx w).2)
           = Multipart (FormField "operations" (JSONText ops)
                          :: FormField "map" (JSONText (marshal_Map (Map query)))
                          :: (file_part <$> files req))).
Proof.
  intros Hnodup query N. subst query N.
  assert (∀ c ctx w,
            w_req w = req →
            len_vars req = 0%nat →
            Forall readable (files req) →
            ∃ ops,
              marshal_Operations
                (Operations (fillMultipartRequestSpecQuery req)) = Ok ops
              ∧ body (w_req (runMultipartRequestSpec c ctx w).2)
                = Multipart
                    (FormField "operations" (JSONText ops)
                       :: FormField "map"
                            (JSONText
                               (marshal_Map
                                  (Map (fillMultipartRequestSpecQuery req))))
                       :: (file_part <$> files req))) as Hlink.
  { intros c ctx w <- Hvars Hfiles.
    by apply runMultipartRequestSpec_fields. }
  revert Hlink. rewrite fillMultipartRequestSpecQuery_unfold. cbn.
  intros Hlink.
  assert (size (fill_loop 0 (files req) [] ∅).2 = length (files req))
    as Hsize.
  { rewrite <-size_dom, fill_loop_dom, dom_empty_L, (left_id_L ∅ (∪)).
    rewrite size_list_to_set by done. by rewrite length_fmap. }
  assert (∀ i file,
            files req !! i = Some file →
            (fill_loop 0 (files req) [] ∅).2 !! Field file = Some [path i])
    as Hentry.
  { intros i file Hi.
    by rewrite (fill_loop_lookup_distinct 0 _ _ _ i). }
  split_and!; [done|done| | | |done].
  - destruct (marshal_Map_members (fill_loop 0 (files req) [] ∅).2)
      as (members & Hm & Hlen & Hassoc).
    exists members. split_and!; [done|congruence|].
    intros i file Hi. by rewrite (Hassoc _ _ (Hentry i file Hi)).
  - intros Hpos. rewrite decide_True by done.
    unfold marshal_Operations, marshal_specVariables, marshal_slice. cbn.
    by rewrite marshal_placeholders.
  - intros Hzero. rewrite decide_False by lia.
    split; [done|].
    destruct (files req); [|done]. reflexivity.
Qed.

End Bodies.

(** * Sample calls *)

Section Samples.

(** ** Checks made before any encoding *)

Lemma Run_files_without_multipart_witness :
  let c := sample_client (server 200 body_hero) false false in
  let w := @start sample
             (AddFile "file" "a.txt" (reader "AAA") (NewRequest "mutation"))
             None in
  files (w_req w) ≠ []
  ∧ (@Run sample c Pending w).2 = w
  ∧ sent (w_events (@Run sample c Pending w).2) = []
  ∧ (@Run sample c Pending w).1
    = Fail files_need_multipart.
Proof.
  intros c w.
  assert (files (w_req w) ≠ []) as Hfiles.
  { vm_compute. discriminate. }
  destruct (@Run_files_without_multipart sample c Pending w
              Hfiles eq_refl eq_refl) as (Hw & Hsent & Herr).
  split_and!; [exact Hfiles|exact Hw|exact Hsent|exact (Herr eq_refl)].
Defined.

Lemma Run_vars_in_request_spec_mode_witness :
  let c := sample_client (server 200 body_hero) false true in
  let w := @start sample
             (Var "x" (AnyJSON (JNumber 1))
                (AddFile "file" "a.txt" (reader "AAA") (NewRequest "mutation")))
             None in
  (0 < len_vars (w_req w))%nat
  ∧ (@Run sample c Pending w).2 = w
  ∧ sent (w_events (@Run sample c Pending w).2) = []
  ∧ (@Run sample c Pending w).1
    = Fail variables_not_supported.
Proof.
  intros c w.
  assert (0 < len_vars (w_req w))%nat as Hvars.
  { vm_compute. lia. }
  destruct (@Run_vars_in_request_spec_mode sample c Pending w
              Hvars eq_refl eq_refl) as (Hw & Hsent & Herr).
  split_and!; [exact Hvars|exact Hw|exact Hsent|exact (Herr eq_refl)].
Defined.

(** ** Construction and dispatch *)

Lemma Run_both_multipart_options_witness :
  let opts := [UseMultipartRequestSpec;
               WithHTTPClient (Some (server 200 body_hero));
               UseMultipartForm] in
  let c := @NewClient sample "https://machinebox.io/graphql" opts in
  let w := @start sample
             (Var "x" (AnyJSON (JNumber 1))
                (AddFile "file" "a.txt" (reader "AAA") (NewRequest "mutation")))
             None in
  Forall exported opts
  ∧ UseMultipartForm ∈ opts
  ∧ UseMultipartRequestSpec ∈ opts
  ∧ useMultipartForm c = true
  ∧ useMultipartRequestSpec c = true
  ∧ @Run sample c Pending w = @runWithPostFields sample c Pending w.
Proof.
  intros opts c w.
  assert (Forall exported opts) as Hall.
  { repeat constructor. }
  assert (UseMultipartForm ∈ opts) as Hform.
  { do 2 apply list_elem_of_further. apply list_elem_of_here. }
  assert (UseMultipartRequestSpec ∈ opts) as Hspec.
  { apply list_elem_of_here. }
  destruct (@Run_both_multipart_options sample
              "https://machinebox.io/graphql" opts Pending w
              Hall Hform Hspec) as (Hf & Hs & Hrun).
  split_and!; [exact Hall|exact Hform|exact Hspec|exact Hf|exact Hs|exact Hrun].
Defined.

(** With both options and a variable set the call goes through: the
    variable travels in the [variables] field of the form. *)
Example sample_both_options_with_variable :
  let c := @NewClient sample "https://machinebox.io/graphql"
             [UseMultipartRequestSpec;
              WithHTTPClient (Some (server 200 body_hero));
              UseMultipartForm] in
  let out := @Run sample c Pending
               (@start sample
                  (Var "x" (AnyJSON (JNumber 1))
                     (AddFile "file" "a.txt" (reader "AAA")
                        (NewRequest "mutation"))) None) in
  out.1 = Return tt
  ∧ ReqBody <$> sent (w_events out.2)
    = [Multipart [FormField "query" (Raw "mutation");
                  FormField "variables" (JSONText (JObject [("x", JNumber 1)]));
                  FormFile "file" "a.txt" "AAA"]].
Proof. by vm_compute. Qed.

(** ** The operations and map fields of the multipart request spec *)

(** C4 as stated fails when two files share a fieldname: the second
    assignment to [query.Map] replaces the first. *)
Lemma repeated_field_shares_map_entry :
  let req := AddFile "file" "b.txt" (reader "BBB")
               (AddFile "file" "a.txt" (reader "AAA")
                  (NewRequest "mutation")) in
  let query := fillMultipartRequestSpecQuery req in
  length (files req) = 2%nat
  ∧ len_vars req = 0%nat
  ∧ (Field <$> files req) !! 0%nat = Some "file"
  ∧ size (Map query) ≠ 2%nat
  ∧ Map query !! "file" ≠ Some [path 0]
  ∧ marshal_Map (Map query)
    = JObject [("file", JArray [JString "variables.files.1"])].
Proof. vm_compute. split_and!; [done|done|done|lia|discriminate|done]. Qed.

Lemma fillMultipartRequestSpecQuery_distinct_fields_witness :
  let req := AddFile "b" "b.txt" (reader "BBB")
               (AddFile "a" "a.txt" (reader "AAA") (NewRequest "mutation")) in
  let query := fillMultipartRequestSpecQuery req in
  NoDup (Field <$> files req)
  ∧ size (Map query) = 2%nat
  ∧ Map query !! "a" = Some ["variables.files.0"]
  ∧ Map query !! "b" = Some ["variables.files.1"]
  ∧ marshal_Operations (Operations query)
    = Ok (JObject [("query", JString "mutation");
                   ("variables", JObject [("files", JArray [JNull; JNull])])]).
Proof.
  intros req query.
  assert (NoDup (Field <$> files req)) as Hnodup.
  { refine (bool_decide_unpack _ _). vm_compute. exact I. }
  destruct (@fillMultipartRequestSpecQuery_distinct_fields sample req Hnodup)
    as (Hsize & Hentry & _ & Hops & _ & _).
  split_and!.
  - exact Hnodup.
  - exact Hsize.
  - exact (Hentry 0%nat {| Field := "a"; Name := "a.txt"; R := reader "AAA" |}
             eq_refl).
  - exact (Hentry 1%nat {| Field := "b"; Name := "b.txt"; R := reader "BBB" |}
             eq_refl).
  - apply Hops. vm_compute. lia.
Defined.

(** The body sent for those two files in multipart request spec mode. *)
Example sample_request_spec :
  let c := sample_client (server 200 body_hero) false true in
  let req := AddFile "b" "b.txt" (reader "BBB")
               (AddFile "a" "a.txt" (reader "AAA") (NewRequest "mutation")) in
  let out := @Run sample c Pending (@start sample req None) in
  out.1 = Return tt
  ∧ ReqBody <$> sent (w_events out.2)
    = [Multipart
         [FormField "operations"
            (JSONText
               (JObject [("query", JString "mutation");
                         ("variables",
                          JObject [("files", JArray [JNull; JNull])])]));
          FormField "map"
            (JSONText
               (JObject [("a", JArray [JString "variables.files.0"]);
                         ("b", JArray [JString "variables.files.1"])]));
          FormFile "a" "a.txt" "AAA";
          FormFile "b" "b.txt" "BBB"]].
Proof. by vm_compute. Qed.

(** ** Reconciling the decoded response with the HTTP status *)

(** C5 as stated fails for a successful status other than 200: an answer
    204 whose empty body does not decode ends in the status error, not in
    the decode failure. *)
Lemma status_204_with_undecodable_body :
  let c := sample_client (server 204 "") false false in
  let out := @Run sample c Pending
               (@start sample (NewRequest "mutation { ping }") None) in
  success_status 204 = true
  ∧ length (sent (w_events out.2)) = 1%nat
  ∧ d_err (@Decode sample "" {| Data := None; Errors := [] |}) = Some EOF
  ∧ out.1 = Fail (ErrStatus 204)
  ∧ out.1 ≠ Fail (errors_Wrap EOF "failed to decode response").
Proof. vm_compute. split_and!; [done..|discriminate]. Qed.

Lemma Run_decode_failure_witness :
  let w := @start sample (NewRequest "query { hero { name } }") None in
  let c500 :=
    sample_client (server 500 "<html>Internal Server Error</html>")
                  false false in
  let c200 := sample_client (server 200 "<html>") false false in
  (@Run sample c500 Pending w).1 = Fail (ErrStatus 500)
  ∧ (@Run sample c200 Pending w).1
    = Fail (errors_Wrap invalid_character "failed to decode response").
Proof.
  intros w c500 c200.
  pose (r500 := @outbound sample c500 Pending
                  (w_req (@Run sample c500 Pending w).2)).
  pose (r200 := @outbound sample c200 Pending
                  (w_req (@Run sample c200 Pending w).2)).
  assert (sent (w_events (@Run sample c500 Pending w).2)
          = sent (w_events w) ++ [r500]) as Hsent500.
  { vm_compute. reflexivity. }
  assert (sent (w_events (@Run sample c200 Pending w).2)
          = sent (w_events w) ++ [r200]) as Hsent200.
  { vm_compute. reflexivity. }
  assert (d_err (@Decode sample "<html>Internal Server Error</html>"
                   {| Data := w_resp w; Errors := [] |})
          = Some invalid_character) as Hdec500.
  { vm_compute. reflexivity. }
  assert (d_err (@Decode sample "<html>" {| Data := w_resp w; Errors := [] |})
          = Some invalid_character) as Hdec200.
  { vm_compute. reflexivity. }
  assert (500 ≠ 200) as Hcode by lia.
  split.
  - exact (proj1 (@Run_decode_failure sample c500 Pending w
                    (server 500 "<html>Internal Server Error</html>") r500
                    {| StatusCode := 500;
                       Body := {| r_data := "<html>Internal Server Error</html>";
                                  r_err := None |} |}
                    "<html>Internal Server Error</html>" invalid_character
                    eq_refl Hsent500 eq_refl eq_refl Hdec500) Hcode).
  - exact (proj2 (@Run_decode_failure sample c200 Pending w
                    (server 200 "<html>") r200
                    {| StatusCode := 200;
                       Body := {| r_data := "<html>"; r_err := None |} |}
                    "<html>" invalid_character
                    eq_refl Hsent200 eq_refl eq_refl Hdec200) eq_refl).
Defined.

(** C6 as stated fails on the text of the error: the returned error is the
    first element of the list, and its text carries the "graphql: " prefix
    in front of the element's message. *)
Lemma server_error_text_is_prefixed :
  let c := sample_client (server 200 body_errors) false false in
  let out := @Run sample c Pending
               (@start sample (NewRequest "query { hero { name } }")
                  (Some JNull)) in
  Errors <$> d_gr (@Decode sample body_errors
                     {| Data := Some JNull; Errors := [] |})
  = Some [{| Message := "boom" |}; {| Message := "second" |}]
  ∧ out.1 = Fail (ErrGraph {| Message := "boom" |})
  ∧ Error (ErrGraph {| Message := "boom" |}) = "graphql: boom"
  ∧ Error (ErrGraph {| Message := "boom" |}) ≠ "boom".
Proof. vm_compute. split_and!; [done..|discriminate]. Qed.

Lemma Run_server_errors_witness :
  let c := sample_client (server 200 body_errors) false false in
  let out := @Run sample c Pending
               (@start sample (NewRequest "query { hero { name } }")
                  (Some JNull)) in
  out.1 = Fail (ErrGraph {| Message := "boom" |})
  ∧ Error (ErrGraph {| Message := "boom" |}) = "graphql: boom"
  ∧ w_resp out.2 = Some (JObject [("hero", JNull)]).
Proof.
  intros c out.
  pose (w := @start sample (NewRequest "query { hero { name } }")
               (Some JNull)).
  pose (r := @outbound sample c Pending (w_req (@Run sample c Pending w).2)).
  assert (sent (w_events (@Run sample c Pending w).2)
          = sent (w_events w) ++ [r]) as Hsent.
  { vm_compute. reflexivity. }
  assert (d_gr (@Decode sample body_errors
                  {| Data := w_resp w; Errors := [] |})
          = Some {| Data := Some (JObject [("hero", JNull)]);
                    Errors := [{| Message := "boom" |};
                               {| Message := "second" |}] |}) as Hgr.
  { vm_compute. reflexivity. }
  assert (d_err (@Decode sample body_errors
                   {| Data := w_resp w; Errors := [] |}) = None) as Herr.
  { vm_compute. reflexivity. }
  destruct (proj1 (@Run_server_errors sample c Pending w
                     (server 200 body_errors) r
                     {| StatusCode := 200;
                        Body := {| r_data := body_errors; r_err := None |} |}
                     body_errors eq_refl Hsent eq_refl eq_refl)
                  _ {| Message := "boom" |} [{| Message := "second" |}]
                  Herr Hgr eq_refl) as (Hout & Htext & Hresp).
  split_and!; [exact Hout|exact Htext|].
  subst out. fold w. rewrite Hresp. vm_compute. reflexivity.
Defined.

Lemma Run_success_whatever_status_witness :
  let c := sample_client (server 500 body_hero) false false in
  let out := @Run sample c Pending
               (@start sample (NewRequest "query { hero { name } }")
                  (Some JNull)) in
  out.1 = Return tt.
Proof.
  intros c out.
  pose (w := @start sample (NewRequest "query { hero { name } }")
               (Some JNull)).
  pose (r := @outbound sample c Pending (w_req (@Run sample c Pending w).2)).
  assert (sent (w_events (@Run sample c Pending w).2)
          = sent (w_events w) ++ [r]) as Hsent.
  { vm_compute. reflexivity. }
  assert (d_gr (@Decode sample body_hero {| Data := w_resp w; Errors := [] |})
          = Some {| Data := Some hero; Errors := [] |}) as Hgr.
  { vm_compute. reflexivity. }
  assert (d_err (@Decode sample body_hero
                   {| Data := w_resp w; Errors := [] |}) = None) as Herr.
  { vm_compute. reflexivity. }
  exact (@Run_success_whatever_status sample c Pending w
           (server 500 body_hero) r
           {| StatusCode := 500;
              Body := {| r_data := body_hero; r_err := None |} |}
           body_hero {| Data := Some hero; Errors := [] |}
           eq_refl Hsent eq_refl eq_refl Herr Hgr eq_refl).
Defined.

(** The hero query in JSON mode against a server that answers 200: no
    error, and the caller's response object holds the hero. *)
Example sample_hero :
  let c := sample_client (server 200 body_hero) false false in
  let out := @Run sample c Pending
               (@start sample (NewRequest "query { hero { name } }")
                  (Some JNull)) in
  out.1 = Return tt ∧ w_resp out.2 = Some hero.
Proof. by vm_compute. Qed.

(** A server that answers [null]: the call panics. *)
Example sample_null_body :
  let c := sample_client (server 200 "null") false false in
  let out := @Run sample c Pending
               (@start sample (NewRequest "query { hero { name } }")
                  (Some JNull)) in
  out.1 = Panic "invalid memory address or nil pointer dereference".
Proof. by vm_compute. Qed.

(** ** The bodies the encoders stage and send *)

(** C1 as stated fails for a mapping that was never written: the
    [variables] member of the body sent is [null], not the empty object. *)
Lemma nil_variables_sent_as_null :
  let c := sample_client (server 200 body_hero) false false in
  let req := NewRequest "query { hero { name } }" in
  let out := @Run sample c Pending (@start sample req None) in
  let object := JObject [("query", JString "query { hero { name } }");
                         ("variables", JNull)] in
  vars req = None
  ∧ out.1 = Return tt
  ∧ ReqBody <$> sent (w_events out.2) = [JSONBody object]
  ∧ member "variables" object = Some JNull
  ∧ member "variables" object ≠ Some (JObject []).
Proof. vm_compute. split_and!; [done..|discriminate]. Qed.

Lemma runWithJSON_without_variables_witness :
  let c := sample_client (server 200 body_hero) false false in
  let req := NewRequest "query { hero { name } }" in
  let out := @Run sample c Pending (@start sample req None) in
  let object := JObject [("query", JString "query { hero { name } }");
                         ("variables", JNull)] in
  (vars req = None ∨ vars req = Some ∅)
  ∧ body (w_req out.2) = JSONBody object
  ∧ contentType (w_req out.2) = "application/json; charset=utf-8"
  ∧ member "variables" object = Some JNull.
Proof.
  intros c req out object.
  assert (vars (w_req (@start sample req None)) = None
          ∨ vars (w_req (@start sample req None)) = Some ∅) as Hvars.
  { left. reflexivity. }
  destruct (@runWithJSON_without_variables sample c Pending
              (@start sample req None) Hvars)
    as (Hbody & Hct & _ & Hmember & _ & Hrun).
  assert (out = @runWithJSON sample c Pending (@start sample req None))
    as Hout.
  { exact (Hrun eq_refl eq_refl eq_refl). }
  rewrite Hout.
  split_and!; [exact Hvars|exact Hbody|exact Hct|exact Hmember].
Defined.

(** A mapping that exists and is empty does give the empty object. *)
Example sample_JSON_empty_variables :
  let c := sample_client (server 200 body_hero) false false in
  let req := {| q := "query { hero { name } }"; vars := Some ∅; files := [];
                Header := ∅; body := Empty; contentType := "" |} in
  let out := @Run sample c Pending (@start sample req None) in
  ReqBody <$> sent (w_events out.2)
  = [JSONBody (JObject [("query", JString "query { hero { name } }");
                        ("variables", JObject [])])].
Proof. by vm_compute. Qed.

Lemma runWithPostFields_parts_witness :
  let c := sample_client (server 200 body_hero) true false in
  let req := Var "x" (AnyJSON (JNumber 1))
               (AddFile "b" "b.txt" (reader "BBB")
                  (AddFile "a" "a.txt" (reader "AAA")
                     (NewRequest "mutation"))) in
  let out := @Run sample c Pending (@start sample req None) in
  let variables := JObject [("x", JNumber 1)] in
  marshal_vars (vars req) = Ok variables
  ∧ Forall readable (files req)
  ∧ ∃ parts,
      body (w_req out.2) = Multipart parts
      ∧ text_field "query" parts = [Raw "mutation"]
      ∧ text_field "variables" parts = [JSONText variables]
      ∧ file_parts parts = [("a", "a.txt", "AAA"); ("b", "b.txt", "BBB")]
      ∧ length parts = 4%nat.
Proof.
  intros c req out variables.
  assert (marshal_vars (vars (w_req (@start sample req None))) = Ok variables)
    as Hvars.
  { vm_compute. reflexivity. }
  assert (Forall readable (files (w_req (@start sample req None)))) as Hfiles.
  { repeat constructor; eexists; split; reflexivity. }
  destruct (@runWithPostFields_parts sample c Pending (@start sample req None)
              variables Hvars Hfiles)
    as (parts & Hbody & _ & Hquery & Hvariables & _ & Hparts & Hlen & _
        & Hrun).
  assert (out = @runWithPostFields sample c Pending (@start sample req None))
    as Hout.
  { exact (Hrun eq_refl). }
  rewrite Hout.
  split_and!; [exact Hvars|exact Hfiles|].
  exists parts.
  split_and!; [exact Hbody|exact Hquery|exact Hvariables|exact Hparts|
               exact Hlen].
Defined.

(** The four parts of that body, as they are sent. *)
Example sample_multipart_form :
  let c := sample_client (server 200 body_hero) true false in
  let req := Var "x" (AnyJSON (JNumber 1))
               (AddFile "b" "b.txt" (reader "BBB")
                  (AddFile "a" "a.txt" (reader "AAA")
                     (NewRequest "mutation"))) in
  let out := @Run sample c Pending (@start sample req None) in
  ReqBody <$> sent (w_events out.2)
  = [Multipart [FormField "query" (Raw "mutation");
                FormField "variables" (JSONText (JObject [("x", JNumber 1)]));
                FormFile "a" "a.txt" "AAA";
                FormFile "b" "b.txt" "BBB"]]
  ∧ contentType (w_req out.2) = "multipart/form-data; boundary=c0ffee".
Proof. by vm_compute. Qed.

End Samples.

(** * Further properties *)

(** ** The request model *)

Section RequestModel.

Implicit Types (req : Request).

(** X1: after [req.Var(key, value)] the variable mapping exists and holds
    [value] under [key]; every other key reads as before; the query and the
    file list are untouched. *)
Theorem Var_lookup key value req :
  ∃ m,
    Vars (Var key value req) = Some m
    ∧ m !! key = Some value
    ∧ (∀ k, k ≠ key → m !! k = default ∅ (Vars req) !! k)
    ∧ Query (Var key value req) = Query req
    ∧ Files (Var key value req) = Files req.
Proof.
  eexists. split; [reflexivity|]. split_and!; [|intros k Hk|done|done].
  - apply lookup_insert_eq.
  - rewrite lookup_insert_ne by done. unfold Vars. by destruct (vars req).
Qed.

(** X2: setting two different variables gives the same request in either
    order, and setting one of them twice keeps the later value only. *)
Theorem Var_order k1 v1 v1' k2 v2 req :
  k1 ≠ k2 →
  Var k1 v1 (Var k2 v2 req) = Var k2 v2 (Var k1 v1 req)
  ∧ Var k1 v1' (Var k2 v2 (Var k1 v1 req)) = Var k2 v2 (Var k1 v1' req).
Proof.
  intros Hne. unfold Var. cbn. split; f_equal; f_equal.
  - by apply insert_insert_ne.
  - rewrite (insert_insert_ne _ k2 k1) by congruence.
    rewrite insert_insert_eq. by apply insert_insert_ne.
Qed.

End RequestModel.

(** ** Construction *)

Section Construction.

Context {P : Platform}.

Implicit Types (c : Client) (opts : list ClientOption).

(** A flag that only one exported option raises and none lowers is set
    after the options exactly when that option is among them. *)
Lemma options_flag_iff (flag : Client → bool) (setter : ClientOption) opts c :
  (∀ o c, exported o → flag (o c) = true → flag c = true ∨ o = setter) →
  (∀ o c, exported o → flag c = true → flag (o c) = true) →
  (∀ c, flag (setter c) = true) →
  Forall exported opts →
  flag c = false →
  flag (foldl (λ c optionFunc, optionFunc c) c opts) = true ↔ setter ∈ opts.
Proof.
  intros Hraise Hkeep Hset Hall. revert c.
  induction Hall as [|o opts Ho Hall IH]; intros c Hc; cbn.
  - rewrite Hc. split; [done|]. by intros ?%elem_of_nil.
  - rewrite elem_of_cons.
    destruct (flag (o c)) eqn:Hoc.
    + destruct (Hraise o c Ho Hoc) as [Habs| ->]; [congruence|].
      split; [by left|]. intros _. clear IH Hc Hoc Ho.
      revert c. induction Hall as [|o' opts Ho' Hall IH]; intros c; cbn.
      * apply Hset.
      * assert (flag (foldl (λ c optionFunc, optionFunc c) (o' (setter c))
                        opts) = true) as Hgoal; [|done].
        assert (∀ c', flag c' = true →
                      flag (foldl (λ c optionFunc, optionFunc c) c' opts)
                      = true) as Hmono.
        { clear IH. intros c' Hc'. revert c' Hc'.
          induction Hall as [|o'' opts Ho'' Hall IH]; intros c' Hc'; cbn;
            [done|].
          by apply IH, Hkeep. }
        by apply Hmono, Hkeep.
    + rewrite (IH (o c) Hoc). split; [by right|].
      intros [->|Hin]; [|done]. by rewrite Hset in Hoc.
Qed.

Lemma options_keep_endpoint opts c :
  Forall exported opts →
  endpoint (foldl (λ c optionFunc, optionFunc c) c opts) = endpoint c.
Proof.
  intros Hall. revert c.
  induction Hall as [|o opts Ho Hall IH]; intros c; cbn; [done|].
  rewrite IH. by destruct Ho.
Qed.

Lemma NewClient_fields url opts :
  let c0 := foldl (λ c optionFunc, optionFunc c)
              {| endpoint := url; httpClient := None;
                 useMultipartForm := false; useMultipartRequestSpec := false;
                 closeReq := false |} opts in
  endpoint (NewClient url opts) = endpoint c0
  ∧ useMultipartForm (NewClient url opts) = useMultipartForm c0
  ∧ useMultipartRequestSpec (NewClient url opts) = useMultipartRequestSpec c0
  ∧ closeReq (NewClient url opts) = closeReq c0
  ∧ httpClient (NewClient url opts)
    = Some (default DefaultClient (httpClient c0)).
Proof.
  cbn. unfold NewClient.
  destruct (httpClient _) as [h|] eqn:Hh; cbn; by rewrite ?Hh.
Qed.

(** X3: a client built from exported options keeps the endpoint it was
    given, and each of its three flags is set exactly when the option that
    raises it is among the options: no option lowers a flag, and the order of
    the options does not matter. *)
Theorem NewClient_options url opts :
  Forall exported opts →
  let c := NewClient url opts in
  endpoint c = url
  ∧ (useMultipartForm c = true ↔ UseMultipartForm ∈ opts)
  ∧ (useMultipartRequestSpec c = true ↔ UseMultipartRequestSpec ∈ opts)
  ∧ (closeReq c = true ↔ ImmediatelyCloseReqBody ∈ opts).
Proof.
  intros Hall c. subst c.
  destruct (NewClient_fields url opts) as (-> & -> & -> & -> & _).
  split_and!.
  - by rewrite options_keep_endpoint.
  - apply (options_flag_iff useMultipartForm); [| |done..].
    + intros o c [] ?; auto.
    + by intros o c [] ?.
  - apply (options_flag_iff useMultipartRequestSpec); [| |done..].
    + intros o c [] ?; auto.
    + by intros o c [] ?.
  - apply (options_flag_iff closeReq); [| |done..].
    + intros o c [] ?; auto.
    + by intros o c [] ?.
Qed.

Lemma flag_options_keep_httpClient opts c :
  Forall (λ o, o = UseMultipartForm ∨ o = UseMultipartRequestSpec
               ∨ o = ImmediatelyCloseReqBody) opts →
  httpClient (foldl (λ c optionFunc, optionFunc c) c opts) = httpClient c.
Proof.
  intros Hall. revert c.
  induction Hall as [|o opts Ho Hall IH]; intros c; cbn; [done|].
  rewrite IH. by destruct Ho as [->|[->| ->]].
Qed.

(** X4: whatever the options, [NewClient] never leaves the HTTP capability
    nil.  When the options that follow are flag options only, the capability
    is the one the last [WithHTTPClient] gave, and [http.DefaultClient] when
    that option gave nil or when there is no such option at all. *)
Theorem NewClient_httpClient url opts (h : Doer) rest :
  Forall (λ o, o = UseMultipartForm ∨ o = UseMultipartRequestSpec
               ∨ o = ImmediatelyCloseReqBody) rest →
  httpClient (NewClient url opts) ≠ None
  ∧ httpClient (NewClient url rest) = Some DefaultClient
  ∧ httpClient (NewClient url (opts ++ WithHTTPClient (Some h) :: rest))
    = Some h
  ∧ httpClient (NewClient url (opts ++ WithHTTPClient None :: rest))
    = Some DefaultClient.
Proof.
  intros Hrest. split_and!.
  - by destruct (NewClient_fields url opts) as (_ & _ & _ & _ & ->).
  - destruct (NewClient_fields url rest) as (_ & _ & _ & _ & ->).
    cbn. by rewrite flag_options_keep_httpClient.
  - destruct (NewClient_fields url (opts ++ WithHTTPClient (Some h) :: rest))
      as (_ & _ & _ & _ & ->).
    cbn. rewrite foldl_app. cbn. by rewrite flag_options_keep_httpClient.
  - destruct (NewClient_fields url (opts ++ WithHTTPClient None :: rest))
      as (_ & _ & _ & _ & ->).
    cbn. rewrite foldl_app. cbn. by rewrite flag_options_keep_httpClient.
Qed.

End Construction.

(** ** How a call can end *)

Section Outcomes.

Context {P : Platform}.

Implicit Types (c : Client) (ctx : Context) (w : World) (req : Request).

Lemma failed_bind {A B} (m : M A) (k : A → M B) w :
  failed (m w).1 → failed (bind m k w).1 ∧ (bind m k w).2 = (m w).2.
Proof. unfold bind. by destruct (m w) as [[a|err|msg] w1]. Qed.

Lemma write_file_cases file :
  readable file
  ∨ ∀ writer w,
      failed (write_file writer file w).1 ∧ (write_file writer file w).2 = w.
Proof.
  destruct (R file) as [src|] eqn:Hsrc.
  - destruct (r_err src) as [e|] eqn:Herr.
    + right. intros writer w.
      unfold write_file, bind, wrap, io_Copy. by rewrite Hsrc, Herr.
    + left. by exists src.
  - right. intros writer w. unfold write_file. by rewrite Hsrc.
Qed.

(** The loop over the files either finds them all readable, or fails on
    the way, the request as it was and nothing sent. *)
Lemma write_files_cases fs :
  Forall readable fs
  ∨ ∀ log writer w,
      failed (write_files log fs writer w).1
      ∧ w_req (write_files log fs writer w).2 = w_req w
      ∧ quiet w (write_files log fs writer w).2.
Proof.
  induction fs as [|file rest IH]; [left; constructor|].
  destruct (write_file_cases file) as [Hr|Hstop].
  - destruct IH as [Hall|IH]; [left; by constructor|].
    right. intros log writer w.
    set (w1 := ((if log
                 then logf ">> file: %s = %s"
                        [ArgString (Field file); ArgString (Name file)]
                 else pure tt) w).2).
    assert (w_req w1 = w_req w ∧ quiet w w1) as [Hreq Hq].
    { subst w1. destruct log; cbn; [|by split].
      split; [done|]. split; [apply sent_Logf|done]. }
    assert (write_files log (file :: rest) writer w
            = write_files log rest (writer ++ [file_part file]) w1) as ->.
    { cbn. unfold bind at 1. rewrite write_file_readable by done.
      subst w1. by destruct log. }
    destruct (IH log (writer ++ [file_part file]) w1) as (Hf & Hreq' & Hq').
    split_and!; [done|congruence|by eapply quiet_trans].
  - right. intros log writer w. cbn.
    destruct (Hstop writer w) as [Hf Hw].
    destruct (failed_bind (write_file writer file)
                (λ writer0,
                   bind (if log
                         then logf ">> file: %s = %s"
                                [ArgString (Field file);
                                 ArgString (Name file)]
                         else pure tt)
                        (λ _, write_files log rest writer0)) w Hf)
      as [Hf' Hw'].
    split_and!; [done|by rewrite Hw', Hw|].
    rewrite Hw', Hw. apply quiet_refl.
Qed.

(** The error of the first file that cannot be read. *)
Lemma write_files_read_error log pre file post writer w src e :
  Forall readable pre →
  R file = Some src →
  r_err src = Some e →
  (write_files log (pre ++ file :: post) writer w).1
  = Fail (errors_Wrap e "failed to copy file content").
Proof.
  intros Hpre Hsrc Herr. revert writer w.
  induction Hpre as [|g pre Hg _ IH]; intros writer w; cbn.
  - unfold bind at 1, write_file, bind, wrap, io_Copy.
    by rewrite Hsrc, Herr.
  - unfold bind at 1. rewrite write_file_readable by done.
    destruct log; cbn; apply IH.
Qed.

Lemma write_files_nil_reader log pre file post writer w :
  Forall readable pre →
  R file = None →
  (write_files log (pre ++ file :: post) writer w).1
  = Panic "invalid memory address or nil pointer dereference".
Proof.
  intros Hpre Hsrc. revert writer w.
  induction Hpre as [|g pre Hg _ IH]; intros writer w; cbn.
  - unfold bind at 1, write_file. by rewrite Hsrc.
  - unfold bind at 1. rewrite write_file_readable by done.
    destruct log; cbn; apply IH.
Qed.

Lemma marshal_vars_no_variables req :
  len_vars req = 0%nat → ∃ j, marshal_vars (vars req) = Ok j.
Proof.
  unfold len_vars. destruct (vars req) as [m|]; [|by eexists].
  intros ->%map_size_empty_iff.
  unfold marshal_vars, sorted_members. rewrite map_to_list_empty. by eexists.
Qed.

Lemma stopped_bind {A} (m : M A) (k : A → M unit) w w0 :
  w_req w0 = w_req w →
  quiet w w0 →
  failed (m w0).1 →
  w_req (m w0).2 = w_req w0 →
  quiet w0 (m w0).2 →
  stopped w (bind m k w0).
Proof.
  intros Hreq Hq Hf Hreq' Hq'.
  destruct (failed_bind m k w0 Hf) as [Hf' Hw'].
  unfold stopped. rewrite Hw'.
  split_and!; [done|congruence|by eapply quiet_trans].
Qed.

Lemma runWithJSON_cases c ctx w :
  stopped w (runWithJSON c ctx w)
  ∨ ∃ j evs,
      encode_requestBodyObj (q (w_req w)) (vars (w_req w)) = Ok j
      ∧ sent evs = []
      ∧ runWithJSON c ctx w
        = makeRequest c ctx
            (staged w evs (JSONBody j) "application/json; charset=utf-8").
Proof.
  destruct (encode_requestBodyObj (q (w_req w)) (vars (w_req w)))
    as [j|e] eqn:Henc.
  - right. eexists j, _. split; [done|]. split; [|by apply runWithJSON_unfold].
    done.
  - left. unfold runWithJSON, bind, get_req, wrap. cbn. rewrite Henc. cbn.
    split_and!; [done..|apply quiet_refl].
Qed.

Lemma runWithPostFields_cases c ctx w :
  stopped w (runWithPostFields c ctx w)
  ∨ ∃ j evs,
      marshal_vars (vars (w_req w)) = Ok j
      ∧ Forall readable (files (w_req w))
      ∧ sent evs = []
      ∧ runWithPostFields c ctx w
        = makeRequest c ctx
            (staged w evs (Multipart (form_parts (w_req w) j))
                    FormDataContentType).
Proof.
  destruct (write_files_cases (files (w_req w))) as [Hall|Hstop].
  - destruct (marshal_vars (vars (w_req w))) as [j|e] eqn:Hm.
    + right. eexists j, _. split_and!; [done|done| |].
      2:{ by apply runWithPostFields_unfold. }
      done.
    + left. destruct (decide (0 < len_vars (w_req w))%nat) as [Hpos|Hzero].
      * unfold runWithPostFields, bind, get_req. cbn.
        rewrite decide_True by done. unfold bind, wrap. rewrite Hm. cbn.
        split_and!; [done..|apply quiet_refl].
      * destruct (marshal_vars_no_variables (w_req w)) as [j Hj]; [lia|].
        congruence.
  - left. unfold runWithPostFields. unfold bind at 1. unfold get_req.
    cbv beta iota. case_decide.
    + destruct (marshal_vars (vars (w_req w))) as [j|e] eqn:Hm.
      * unfold bind at 1. unfold bind at 1. unfold wrap.
        unfold pure at 1 2. cbv beta iota.
        match goal with
        | |- stopped w (bind (write_files false ?fs ?wr) ?k w) =>
            destruct (Hstop false wr w) as (Hf & Hreq & Hq);
            by apply stopped_bind; [done|apply quiet_refl|..]
        end.
      * unfold bind, wrap. cbn.
        split_and!; [done..|apply quiet_refl].
    + unfold bind at 1. unfold pure at 1. cbv beta iota.
      match goal with
      | |- stopped w (bind (write_files false ?fs ?wr) ?k w) =>
          destruct (Hstop false wr w) as (Hf & Hreq & Hq);
          by apply stopped_bind; [done|apply quiet_refl|..]
      end.
Qed.

Lemma runMultipartRequestSpec_unfold c ctx w ops :
  len_vars (w_req w) = 0%nat →
  Forall readable (files (w_req w)) →
  marshal_Operations (Operations (fillMultipartRequestSpecQuery (w_req w)))
  = Ok ops →
  runMultipartRequestSpec c ctx w
  = makeRequest c ctx
      (staged w
         ([Logf ">> field: %s = %s" [ArgString "operations"; ArgJSON ops];
           Logf ">> field: %s = %s"
             [ArgString "map";
              ArgJSON (marshal_Map
                         (Map (fillMultipartRequestSpecQuery (w_req w))))]]
            ++ (file_log <$> files (w_req w)))
         (Multipart (spec_parts (w_req w) ops)) FormDataContentType).
Proof.
  intros Hvars Hfiles Hops.
  unfold runMultipartRequestSpec. unfold bind at 1. unfold get_req.
  cbv beta iota zeta. rewrite decide_False by lia.
  unfold bind at 1. rewrite Hops. unfold wrap, pure. cbv beta iota.
  unfold bind, logf, emit, set_body. cbv beta iota.
  rewrite write_files_logged by done. cbv beta iota.
  unfold staged, spec_parts. cbn. by rewrite <-!app_assoc.
Qed.

Lemma runMultipartRequestSpec_cases c ctx w :
  stopped w (runMultipartRequestSpec c ctx w)
  ∨ ∃ ops evs,
      len_vars (w_req w) = 0%nat
      ∧ Forall readable (files (w_req w))
      ∧ marshal_Operations
          (Operations (fillMultipartRequestSpecQuery (w_req w))) = Ok ops
      ∧ sent evs = []
      ∧ runMultipartRequestSpec c ctx w
        = makeRequest c ctx
            (staged w evs (Multipart (spec_parts (w_req w) ops))
                    FormDataContentType).
Proof.
  destruct (decide (0 < len_vars (w_req w))%nat) as [Hpos|Hzero].
  { left. unfold runMultipartRequestSpec, bind, get_req. cbn.
    rewrite decide_True by done. split_and!; [done..|apply quiet_refl]. }
  destruct (marshal_Operations_total (w_req w)) as [ops Hops].
  destruct (write_files_cases (files (w_req w))) as [Hall|Hstop].
  - right. eexists ops, _. split_and!; [lia|done|done| |].
    2:{ apply runMultipartRequestSpec_unfold; [lia|done..]. }
    rewrite sent_app. cbn. clear. by induction (files (w_req w)).
  - left. unfold runMultipartRequestSpec. unfold bind at 1. unfold get_req.
    cbv beta iota zeta. rewrite decide_False by done.
    unfold bind at 1. rewrite Hops. unfold wrap, pure. cbv beta iota.
    unfold bind at 1. unfold logf at 1, emit at 1. cbv beta iota.
    unfold bind at 1. unfold logf at 1, emit at 1. cbv beta iota.
    match goal with
    | |- stopped w (bind (write_files true ?fs ?wr) ?k ?w0) =>
        destruct (Hstop true wr w0) as (Hf & Hreq & Hq);
        apply stopped_bind; [done| |done..]
    end.
    split; [|done]. cbn. by rewrite !sent_Logf.
Qed.

Lemma Run_request_spec_mode c w :
  useMultipartForm c = false →
  useMultipartRequestSpec c = true →
  Run c Pending w = runMultipartRequestSpec c Pending w.
Proof.
  intros Hform Hspec. unfold Run, bind, get_req. cbn.
  rewrite Hform, Hspec. cbn. by rewrite andb_false_r.
Qed.

(** Every call either stops before [makeRequest], or its mode accepts the
    request, the encoding succeeds and [makeRequest] takes over with the
    encoded body staged. *)
Lemma Run_cases c ctx w :
  stopped w (Run c ctx w)
  ∨ ∃ evs b ct,
      ctx = Pending
      ∧ encoded c (w_req w) b ct
      ∧ sent evs = []
      ∧ Run c ctx w = makeRequest c ctx (staged w evs b ct).
Proof.
  destruct ctx as [|err]; [|left; split_and!; [done..|apply quiet_refl]].
  destruct (useMultipartForm c) eqn:Hform.
  { rewrite Run_multipart_form_mode by done.
    destruct (runWithPostFields_cases c Pending w)
      as [Hstop|(j & evs & Hj & Hall & Hevs & Heq)]; [by left|].
    right. eexists evs, _, _. split_and!; [done| |done..].
    by apply encoded_form. }
  destruct (useMultipartRequestSpec c) eqn:Hspec.
  { rewrite Run_request_spec_mode by done.
    destruct (runMultipartRequestSpec_cases c Pending w)
      as [Hstop|(ops & evs & Hvars & Hall & Hops & Hevs & Heq)]; [by left|].
    right. eexists evs, _, _. split_and!; [done| |done..].
    by apply encoded_spec. }
  destruct (files (w_req w)) as [|file rest] eqn:Hfiles.
  - rewrite Run_JSON_mode by done.
    destruct (runWithJSON_cases c Pending w)
      as [Hstop|(j & evs & Hj & Hevs & Heq)]; [by left|].
    right. eexists evs, _, _. split_and!; [done| |done..].
    by apply encoded_JSON.
  - left.
    assert (Run c Pending w = (Fail files_need_multipart, w)) as ->.
    { unfold Run, bind, get_req. cbn. rewrite Hform, Hspec, Hfiles. cbn.
      by rewrite bool_decide_eq_true_2 by (cbn; lia). }
    split_and!; [done..|apply quiet_refl].
Qed.

(** Conversely, a request its mode accepts and encodes reaches
    [makeRequest]. *)
Lemma Run_encoded c w b ct :
  encoded c (w_req w) b ct →
  ∃ evs, sent evs = []
         ∧ Run c Pending w = makeRequest c Pending (staged w evs b ct).
Proof.
  intros [j Hform Hj Hall|ops Hform Hspec Hvars Hall Hops
          |j Hform Hspec Hfiles Hj].
  - rewrite Run_multipart_form_mode by done.
    eexists. split; [|by apply runWithPostFields_unfold]. done.
  - rewrite Run_request_spec_mode by done.
    eexists. split; [|by apply runMultipartRequestSpec_unfold].
    rewrite sent_app. cbn. clear. by induction (files (w_req w)).
  - rewrite Run_JSON_mode by done.
    eexists. split; [|by apply runWithJSON_unfold]. done.
Qed.

Lemma sent_staged w evs b ct :
  sent evs = [] →
  sent (w_events (staged w evs b ct)) = sent (w_events w).
Proof. intros Hevs. cbn. by rewrite sent_app, Hevs, app_nil_r. Qed.

(** What a request that was sent says about the call. *)
Lemma Run_sent_inv c ctx w r :
  sent (w_events (Run c ctx w).2) = sent (w_events w) ++ [r] →
  ∃ evs b ct do,
    ctx = Pending
    ∧ encoded c (w_req w) b ct
    ∧ sent evs = []
    ∧ ParseURL (endpoint c) = None
    ∧ httpClient c = Some do
    ∧ Run c ctx w = makeRequest c ctx (staged w evs b ct)
    ∧ r = outbound c ctx (w_req (staged w evs b ct)).
Proof.
  intros Hsent.
  destruct (Run_cases c ctx w)
    as [(_ & _ & Hq & _)|(evs & b & ct & -> & Henc & Hevs & Heq)].
  { rewrite Hq in Hsent. symmetry in Hsent. by apply not_sent in Hsent. }
  rewrite Heq in Hsent.
  destruct (ParseURL (endpoint c)) as [e|] eqn:Hurl.
  { rewrite (makeRequest_invalid_url c Pending _ e) in Hsent by done.
    cbn [snd] in Hsent. rewrite sent_staged in Hsent by done.
    symmetry in Hsent. by apply not_sent in Hsent. }
  destruct (httpClient c) as [do|] eqn:Hclient.
  2:{ destruct (makeRequest_no_client c Pending (staged w evs b ct) Hclient)
        as [[Hq _] _].
      rewrite Hq, sent_staged in Hsent by done.
      symmetry in Hsent. by apply not_sent in Hsent. }
  destruct (makeRequest_sent c Pending (staged w evs b ct) do Hurl Hclient)
    as [Hsent' _].
  rewrite Hsent', sent_staged in Hsent by done.
  apply app_inj_tail in Hsent as [_ <-].
  by eexists evs, b, ct, do.
Qed.

End Outcomes.

(** ** Marshalling the variables *)

Section Marshalling.

Lemma result_mapM_Err {A B} (f : A → result B) (l : list A) x e0 :
  x ∈ l → f x = Err e0 → ∃ e, result_mapM f l = Err e.
Proof.
  intros Hin Hx. induction l as [|y l IH]; [by apply elem_of_nil in Hin|].
  cbn. destruct (f y) as [b|e] eqn:Hy; cbn; [|by eexists].
  apply elem_of_cons in Hin as [->|Hin]; [congruence|].
  destruct (IH Hin) as [e ->]. by eexists.
Qed.


Lemma marshal_vars_unsupported (m : gmap string any) key ty :
  m !! key = Some (AnyUnsupported ty) → ∃ e, marshal_vars (Some m) = Err e.
Proof.
  intros Hkey. unfold marshal_vars.
  destruct (result_mapM_Err marshal_member (sorted_members m)
              (key, AnyUnsupported ty)
              (ErrLib ("json: unsupported type: " +:+ ty))) as [e ->];
    [|done|by eexists].
  rewrite sorted_members_Permutation. by apply elem_of_map_to_list.
Qed.




End Marshalling.

(** ** The headers of the request sent *)

Section Headers.

Context {P : Platform}.

Implicit Types (h : gmap string (list string)) (req : Request).

Lemma Header_Add_keeps_value key value k v h :
  (∃ l, h !! k = Some l ∧ v ∈ l) →
  ∃ l, Header_Add key value h !! k = Some l ∧ v ∈ l.
Proof.
  intros (l & Hk & Hv). unfold Header_Add.
  destruct (decide (CanonicalMIMEHeaderKey key = k)) as [->|Hne].
  - rewrite lookup_insert_eq, Hk. cbn. eexists. split; [done|].
    apply elem_of_app. by left.
  - rewrite lookup_insert_ne by done. by eexists.
Qed.

Lemma Header_Add_value key value h :
  ∃ l, Header_Add key value h !! CanonicalMIMEHeaderKey key = Some l
       ∧ value ∈ l.
Proof.
  unfold Header_Add. rewrite lookup_insert_eq. eexists. split; [done|].
  apply elem_of_app. right. apply list_elem_of_here.
Qed.

(** The inner loop: [for _, value := range values]. *)
Lemma add_values_keep (Q : list string → Prop) key values k h :
  (∀ key value h, (∃ l, h !! k = Some l ∧ Q l) →
                  ∃ l, Header_Add key value h !! k = Some l ∧ Q l) →
  (∃ l, h !! k = Some l ∧ Q l) →
  ∃ l, foldl (λ h value, Header_Add key value h) h values !! k = Some l
       ∧ Q l.
Proof.
  intros Hstep. revert h.
  induction values as [|value values IH]; intros h Hh; cbn; [done|].
  by apply IH, Hstep.
Qed.

(** The outer loop: [for key, values := range req.Header]. *)
Lemma add_headers_keep (Q : list string → Prop)
    (hs : list (string * list string)) k h :
  (∀ key value h, (∃ l, h !! k = Some l ∧ Q l) →
                  ∃ l, Header_Add key value h !! k = Some l ∧ Q l) →
  (∃ l, h !! k = Some l ∧ Q l) →
  ∃ l, foldl (λ h kv, foldl (λ h value, Header_Add kv.1 value h) h kv.2)
             h hs !! k = Some l
       ∧ Q l.
Proof.
  intros Hstep. revert h.
  induction hs as [|[key values] hs IH]; intros h Hh; cbn; [done|].
  by apply IH, add_values_keep.
Qed.

Lemma add_values_value key values v h :
  v ∈ values →
  ∃ l, foldl (λ h value, Header_Add key value h) h values
         !! CanonicalMIMEHeaderKey key = Some l
       ∧ v ∈ l.
Proof.
  revert h. induction values as [|value values IH]; intros h Hin; cbn.
  - by apply elem_of_nil in Hin.
  - apply elem_of_cons in Hin as [->|Hin]; [|by apply IH].
    apply (add_values_keep (λ l, value ∈ l)).
    + intros. by apply Header_Add_keeps_value.
    + apply Header_Add_value.
Qed.

Lemma add_headers_value (hs : list (string * list string)) key values v h :
  (key, values) ∈ hs →
  v ∈ values →
  ∃ l, foldl (λ h kv, foldl (λ h value, Header_Add kv.1 value h) h kv.2)
             h hs !! CanonicalMIMEHeaderKey key = Some l
       ∧ v ∈ l.
Proof.
  intros Hin Hv. revert h.
  induction hs as [|[key' values'] hs IH]; intros h; cbn.
  - by apply elem_of_nil in Hin.
  - apply elem_of_cons in Hin as [[= <- <-]|Hin]; [|by apply IH].
    apply (add_headers_keep (λ l, v ∈ l)).
    + intros. by apply Header_Add_keeps_value.
    + by apply add_values_value.
Qed.

Lemma request_header_caller_value req key values v :
  Header req !! key = Some values →
  v ∈ values →
  ∃ l, request_header req !! CanonicalMIMEHeaderKey key = Some l ∧ v ∈ l.
Proof.
  intros Hkey Hv. unfold request_header.
  apply (add_headers_value _ key values); [|done].
  by apply elem_of_map_to_list.
Qed.

Lemma request_header_accept req :
  ∃ l, request_header req !! CanonicalMIMEHeaderKey "Accept" = Some l
       ∧ head l = Some "application/json; charset=utf-8".
Proof.
  unfold request_header.
  apply (add_headers_keep
           (λ l, head l = Some "application/json; charset=utf-8")).
  - intros key value h (l & Hl & Hhead).
    destruct l as [|v more]; [done|]. cbn in Hhead.
    destruct (Header_Add_keeps_head key value
                (CanonicalMIMEHeaderKey "Accept") v h) as [more' Hmore];
      [by eexists|].
    eexists. by split.
  - unfold Header_Set. rewrite lookup_insert_eq. by eexists.
Qed.

End Headers.

(** ** What a call does, end to end *)

Section Calls.

Context {P : Platform}.

Implicit Types (c : Client) (ctx : Context) (w : World) (req : Request).

Lemma bind_Fail {A B} (m : M A) (k : A → M B) w e :
  (m w).1 = Fail e → (bind m k w).1 = Fail e.
Proof. unfold bind. destruct (m w) as [[a|err|msg] w1]; cbn; congruence. Qed.

Lemma bind_Panic {A B} (m : M A) (k : A → M B) w msg :
  (m w).1 = Panic msg → (bind m k w).1 = Panic msg.
Proof. unfold bind. destruct (m w) as [[a|err|msg'] w1]; cbn; congruence. Qed.

(** In a multipart mode that accepts the variables, the call is the loop
    over the files followed by the rest of the method. *)
Lemma Run_file_loop c w :
  (useMultipartForm c = true ∧ ∃ j, marshal_vars (vars (w_req w)) = Ok j)
  ∨ (useMultipartForm c = false ∧ useMultipartRequestSpec c = true
     ∧ len_vars (w_req w) = 0%nat) →
  ∃ log writer k w0,
    Run c Pending w = bind (write_files log (files (w_req w)) writer) k w0.
Proof.
  intros [[Hform [j Hj]]|(Hform & Hspec & Hvars)].
  - rewrite Run_multipart_form_mode by done.
    unfold runWithPostFields. unfold bind at 1. unfold get_req.
    cbv beta iota. case_decide.
    + unfold bind at 1. unfold bind at 1. unfold wrap. rewrite Hj.
      unfold pure at 1 2. cbv beta iota. by eexists _, _, _, _.
    + unfold bind at 1. unfold pure at 1. cbv beta iota.
      by eexists _, _, _, _.
  - rewrite Run_request_spec_mode by done.
    destruct (marshal_Operations_total (w_req w)) as [ops Hops].
    unfold runMultipartRequestSpec. unfold bind at 1. unfold get_req.
    cbv beta iota zeta. rewrite decide_False by lia.
    unfold bind at 1. rewrite Hops. unfold wrap, pure. cbv beta iota.
    unfold bind at 1. unfold logf at 1, emit at 1. cbv beta iota.
    unfold bind at 1. unfold logf at 1, emit at 1. cbv beta iota.
    by eexists _, _, _, _.
Qed.

Lemma unreadable_not_encoded c req b ct pre file post :
  files req = pre ++ file :: post →
  ¬ readable file →
  (useMultipartForm c = true ∨ useMultipartRequestSpec c = true) →
  ¬ encoded c req b ct.
Proof.
  intros Hfiles Hfile Hmode Henc.
  assert (Forall readable (files req) → False) as Hno.
  { rewrite Hfiles. intros Hall. apply Forall_app in Hall as [_ Hall].
    by apply Forall_cons in Hall as [? _]. }
  destruct Henc as [j Hform Hj Hall|ops Hform Hspec Hvars Hall Hops
                   |j Hform Hspec Hnone Hj]; [by apply Hno..|].
  destruct Hmode; congruence.
Qed.

(** A call whose file loop meets a file it cannot read stops there. *)
Lemma Run_unreadable_file c w pre file post :
  files (w_req w) = pre ++ file :: post →
  ¬ readable file →
  (useMultipartForm c = true ∨ useMultipartRequestSpec c = true) →
  w_req (Run c Pending w).2 = w_req w ∧ quiet w (Run c Pending w).2.
Proof.
  intros Hfiles Hfile Hmode.
  destruct (Run_cases c Pending w)
    as [(_ & Hreq & Hq)|(evs & b & ct & _ & Henc & _)]; [done|].
  by destruct (unreadable_not_encoded c (w_req w) b ct pre file post).
Qed.


(** X6: a request sent by a client with neither multipart option had no
    files and serialisable variables, and its body is the JSON object with
    exactly the members query, the query text, and variables, the JSON of the
    variables, in this order. *)
Theorem Run_sent_JSON_body c ctx w r :
  useMultipartForm c = false →
  useMultipartRequestSpec c = false →
  sent (w_events (Run c ctx w).2) = sent (w_events w) ++ [r] →
  files (w_req w) = []
  ∧ ∃ v,
      marshal_vars (vars (w_req w)) = Ok v
      ∧ ReqBody r
        = JSONBody (JObject [("query", JString (q (w_req w)));
                             ("variables", v)]).
Proof.
  intros Hform Hspec Hsent.
  destruct (Run_sent_inv c ctx w r Hsent)
    as (evs & b & ct & do & _ & Henc & _ & _ & _ & _ & ->).
  destruct Henc as [j Hform' _ _|ops _ Hspec' _ _ _|j _ _ Hfiles Hj];
    [congruence..|].
  split; [done|]. unfold encode_requestBodyObj in Hj.
  destruct (marshal_vars (vars (w_req w))) as [v|e]; [|done].
  cbn in Hj. injection Hj as <-. by exists v.
Qed.

(** X7: a request sent by a client in multipart form mode had serialisable
    variables and readable files, and its body is the form with the field
    query, then the field variables when there is at least one variable,
    then one file part per file, in the order the files were added, under
    the file's field name and file name and with all the reader gave. *)
Theorem Run_sent_form_body c ctx w r :
  useMultipartForm c = true →
  sent (w_events (Run c ctx w).2) = sent (w_events w) ++ [r] →
  Forall readable (files (w_req w))
  ∧ ∃ j,
      marshal_vars (vars (w_req w)) = Ok j
      ∧ ReqBody r
        = Multipart
            (FormField "query" (Raw (q (w_req w)))
               :: (if decide (0 < len_vars (w_req w))%nat
                   then [FormField "variables" (JSONText j)] else [])
               ++ ((λ file,
                      FormFile (Field file) (Name file) (content file))
                     <$> files (w_req w))).
Proof.
  intros Hform Hsent.
  destruct (Run_sent_inv c ctx w r Hsent)
    as (evs & b & ct & do & _ & Henc & _ & _ & _ & _ & ->).
  destruct Henc as [j _ Hj Hall|ops Hform' _ _ _ _|j Hform' _ _ _];
    [|congruence..].
  split; [done|]. by exists j.
Qed.

(** X8: a request sent by a client in multipart request spec mode (and not
    in form mode) had no variables and readable files, and its body is the
    form with the field operations, then the field map, then one file part
    per file, in the order the files were added. *)
Theorem Run_sent_request_spec_body c ctx w r :
  useMultipartForm c = false →
  useMultipartRequestSpec c = true →
  sent (w_events (Run c ctx w).2) = sent (w_events w) ++ [r] →
  len_vars (w_req w) = 0%nat
  ∧ Forall readable (files (w_req w))
  ∧ ∃ ops,
      marshal_Operations
        (Operations (fillMultipartRequestSpecQuery (w_req w))) = Ok ops
      ∧ ReqBody r
        = Multipart
            (FormField "operations" (JSONText ops)
               :: FormField "map"
                    (JSONText
                       (marshal_Map
                          (Map (fillMultipartRequestSpecQuery (w_req w)))))
               :: ((λ file,
                      FormFile (Field file) (Name file) (content file))
                     <$> files (w_req w))).
Proof.
  intros Hform Hspec Hsent.
  destruct (Run_sent_inv c ctx w r Hsent)
    as (evs & b & ct & do & _ & Henc & _ & _ & _ & _ & ->).
  destruct Henc as [j Hform' _ _|ops _ _ Hvars Hall Hops|j _ Hspec' _ _];
    [congruence| |congruence].
  split_and!; [done..|]. by exists ops.
Qed.

(** X9: the headers of a request that was sent.  The first Accept value is
    the JSON content type; every value of every header the caller set on the
    request is among the values under the canonical form of its key; and,
    where the canonical keys of Accept and Content-Type differ, the first
    Content-Type value is the multipart form content type in the two
    multipart modes and the JSON content type otherwise. *)
Theorem Run_sent_headers c ctx w r :
  sent (w_events (Run c ctx w).2) = sent (w_events w) ++ [r] →
  (∃ l, ReqHeader r !! CanonicalMIMEHeaderKey "Accept" = Some l
        ∧ head l = Some "application/json; charset=utf-8")
  ∧ (∀ key values v,
       Header (w_req w) !! key = Some values →
       v ∈ values →
       ∃ l, ReqHeader r !! CanonicalMIMEHeaderKey key = Some l ∧ v ∈ l)
  ∧ (CanonicalMIMEHeaderKey "Accept" ≠ CanonicalMIMEHeaderKey "Content-Type" →
     ∃ l, ReqHeader r !! CanonicalMIMEHeaderKey "Content-Type" = Some l
          ∧ head l
            = Some (if useMultipartForm c || useMultipartRequestSpec c
                    then "multipart/form-data; boundary=" +:+ boundary
                    else "application/json; charset=utf-8")).
Proof.
  intros Hsent.
  destruct (Run_sent_inv c ctx w r Hsent)
    as (evs & b & ct & do & _ & Henc & _ & _ & _ & _ & ->).
  split_and!.
  - apply request_header_accept.
  - intros key values v Hkey Hv.
    by apply (request_header_caller_value _ key values).
  - intros Hne.
    destruct (request_header_content_type (w_req (staged w evs b ct)) Hne)
      as [more Hmore].
    eexists. split; [exact Hmore|]. cbn.
    destruct Henc as [j -> _ _|ops -> -> _ _ _|j -> -> _ _]; done.
Qed.

(** X10: with an endpoint the URL parser refuses no request is sent and the
    call does not succeed, the response object untouched; when the request
    is one the client's mode accepts and encodes, the error returned is the
    parser's own. *)
Theorem Run_invalid_endpoint c ctx w e :
  ParseURL (endpoint c) = Some e →
  let out := Run c ctx w in
  failed out.1
  ∧ sent (w_events out.2) = sent (w_events w)
  ∧ w_resp out.2 = w_resp w
  ∧ (∀ b ct, ctx = Pending → encoded c (w_req w) b ct → out.1 = Fail e).
Proof.
  intros Hurl. cbn.
  destruct (Run_cases c ctx w)
    as [(Hf & _ & [Hs Hr])|(evs & b & ct & -> & Henc & Hevs & Heq)].
  - split_and!; [done..|]. intros b ct -> Henc.
    destruct (Run_encoded c w b ct Henc) as (evs & _ & Heq).
    rewrite Heq, (makeRequest_invalid_url c Pending _ e) in Hf |- * by done.
    done.
  - rewrite Heq, (makeRequest_invalid_url c Pending _ e) by done.
    split_and!; [done|by apply sent_staged|done|done].
Qed.

(** X11: when the HTTP capability answers the request with an error, the
    call returns that very error, unwrapped, and leaves the response object
    untouched. *)
Theorem Run_transport_error c ctx w do r e :
  httpClient c = Some do →
  sent (w_events (Run c ctx w).2) = sent (w_events w) ++ [r] →
  do r = Err e →
  (Run c ctx w).1 = Fail e ∧ w_resp (Run c ctx w).2 = w_resp w.
Proof.
  intros Hclient Hsent Hdo.
  destruct (Run_sent_inv c ctx w r Hsent)
    as (evs & b & ct & do' & _ & _ & _ & Hurl & Hclient' & Heq & ->).
  rewrite Heq, (makeRequest_unfold c ctx _ do) by done. cbn zeta.
  by rewrite Hdo.
Qed.

(** X12: when the body of the response cannot be read to its end, the call
    returns the read error wrapped as a failure to read the response body;
    nothing is decoded and the response object is untouched. *)
Theorem Run_response_read_error c ctx w do r res e :
  httpClient c = Some do →
  sent (w_events (Run c ctx w).2) = sent (w_events w) ++ [r] →
  do r = Ok res →
  io_Copy (Body res) = Err e →
  (Run c ctx w).1 = Fail (errors_Wrap e "failed to read response body")
  ∧ w_resp (Run c ctx w).2 = w_resp w.
Proof.
  intros Hclient Hsent Hdo Hread.
  destruct (Run_sent_inv c ctx w r Hsent)
    as (evs & b & ct & do' & _ & _ & _ & Hurl & Hclient' & Heq & ->).
  rewrite Heq, (makeRequest_unfold c ctx _ do) by done. cbn zeta.
  by rewrite Hdo, Hread.
Qed.

(** X13: a call that returns nil went all the way: the context was pending,
    exactly one request was sent, it was answered, the body was read to its
    end, the decoder accepted it, the decoded envelope holds no errors, and
    the response object is what the decoder made of it. *)
Theorem Run_success_inversion c ctx w :
  (Run c ctx w).1 = Return tt →
  ∃ do r res buf gr,
    ctx = Pending
    ∧ httpClient c = Some do
    ∧ sent (w_events (Run c ctx w).2) = sent (w_events w) ++ [r]
    ∧ do r = Ok res
    ∧ io_Copy (Body res) = Ok buf
    ∧ d_err (Decode buf {| Data := w_resp w; Errors := [] |}) = None
    ∧ d_gr (Decode buf {| Data := w_resp w; Errors := [] |}) = Some gr
    ∧ Errors gr = []
    ∧ w_resp (Run c ctx w).2
      = d_target (Decode buf {| Data := w_resp w; Errors := [] |}).
Proof.
  intros Hok.
  destruct (Run_cases c ctx w)
    as [(Hf & _)|(evs & b & ct & -> & Henc & Hevs & Heq)].
  { by rewrite Hok in Hf. }
  rewrite Heq in Hok |- *.
  destruct (ParseURL (endpoint c)) as [e|] eqn:Hurl.
  { by rewrite (makeRequest_invalid_url c Pending _ e) in Hok. }
  destruct (httpClient c) as [do|] eqn:Hclient.
  2:{ by destruct (makeRequest_no_client c Pending (staged w evs b ct)
                     Hclient) as [_ Hno]. }
  destruct (makeRequest_sent c Pending (staged w evs b ct) do Hurl Hclient)
    as [Hsent _].
  rewrite sent_staged in Hsent by done.
  rewrite (makeRequest_unfold c Pending _ do) in Hok |- * by done.
  cbn zeta in Hok |- *.
  set (r := outbound c Pending (w_req (staged w evs b ct))) in *.
  destruct (do r) as [res|e] eqn:Hdo; [|done].
  destruct (io_Copy (Body res)) as [buf|e] eqn:Hread; [|done].
  cbn [fst snd w_resp] in Hok |- *.
  change (w_resp (staged w evs b ct)) with (w_resp w) in *.
  destruct (d_err _) as [err|] eqn:Herr; [by case_decide|].
  destruct (d_gr _) as [gr|] eqn:Hgr; [|done].
  destruct (Errors gr) as [|ge more] eqn:Herrors; [|done].
  exists do, r, res, buf, gr.
  rewrite (makeRequest_unfold c Pending _ do) in Hsent by done.
  cbn zeta in Hsent. fold r in Hsent. rewrite Hdo, Hread in Hsent.
  by split_and!.
Qed.

(** X14: a variable whose value cannot be serialised makes the call fail
    before anything is logged, staged or sent: in JSON mode as a failure to
    encode the request body, in multipart form mode as a failure to encode
    the variables. *)
Theorem Run_unserialisable_variable c w m key ty :
  vars (w_req w) = Some m →
  m !! key = Some (AnyUnsupported ty) →
  (useMultipartForm c = true →
   ∃ e, Run c Pending w
        = (Fail (errors_Wrap e "failed to encode variables"), w))
  ∧ (useMultipartForm c = false →
     useMultipartRequestSpec c = false →
     files (w_req w) = [] →
     ∃ e, Run c Pending w
          = (Fail (errors_Wrap e "failed to encode request body"), w)).
Proof.
  intros Hvars Hkey.
  destruct (marshal_vars_unsupported m key ty Hkey) as [e He].
  assert (0 < len_vars (w_req w))%nat as Hpos.
  { unfold len_vars. rewrite Hvars.
    destruct (decide (size m = 0%nat)) as [Hz|]; [|lia].
    apply map_size_empty_iff in Hz. subst m. by rewrite lookup_empty in Hkey. }
  split.
  - intros Hform. exists e. rewrite Run_multipart_form_mode by done.
    unfold runWithPostFields, bind, get_req. cbn.
    rewrite decide_True by done. unfold bind, wrap. by rewrite Hvars, He.
  - intros Hform Hspec Hfiles. exists e. rewrite Run_JSON_mode by done.
    unfold runWithJSON, bind, get_req, wrap, encode_requestBodyObj. cbn.
    by rewrite Hvars, He.
Qed.


(** X16: in a multipart mode that accepts the variables, the first file
    whose reader fails makes the call return the reader's error wrapped as
    a failure to copy file content; nothing is sent, no body is staged on
    the request and the response object is untouched. *)
Theorem Run_file_read_error c w pre file post src e :
  (useMultipartForm c = true ∧ ∃ j, marshal_vars (vars (w_req w)) = Ok j)
  ∨ (useMultipartForm c = false ∧ useMultipartRequestSpec c = true
     ∧ len_vars (w_req w) = 0%nat) →
  files (w_req w) = pre ++ file :: post →
  Forall readable pre →
  R file = Some src →
  r_err src = Some e →
  let out := Run c Pending w in
  out.1 = Fail (errors_Wrap e "failed to copy file content")
  ∧ body (w_req out.2) = body (w_req w)
  ∧ contentType (w_req out.2) = contentType (w_req w)
  ∧ sent (w_events out.2) = sent (w_events w)
  ∧ w_resp out.2 = w_resp w.
Proof.
  intros Hmode Hfiles Hpre Hsrc Herr. cbv zeta.
  destruct (Run_unreadable_file c w pre file post Hfiles) as (Hreq & Hs & Hr).
  { intros (src' & Hsrc' & Herr'). congruence. }
  { destruct Hmode as [[? _]|(_ & ? & _)]; auto. }
  rewrite Hreq. split_and!; [|done..].
  destruct (Run_file_loop c w Hmode) as (log & writer & k & w0 & ->).
  apply bind_Fail. rewrite Hfiles.
  by apply (write_files_read_error log pre file post writer w0 src).
Qed.

(** X17: in a multipart mode that accepts the variables, a file added with
    a nil reader makes the call panic when the loop reaches it; nothing is
    sent, no body is staged on the request and the response object is
    untouched. *)
Theorem Run_file_nil_reader c w pre file post :
  (useMultipartForm c = true ∧ ∃ j, marshal_vars (vars (w_req w)) = Ok j)
  ∨ (useMultipartForm c = false ∧ useMultipartRequestSpec c = true
     ∧ len_vars (w_req w) = 0%nat) →
  files (w_req w) = pre ++ file :: post →
  Forall readable pre →
  R file = None →
  let out := Run c Pending w in
  out.1 = Panic "invalid memory address or nil pointer dereference"
  ∧ body (w_req out.2) = body (w_req w)
  ∧ contentType (w_req out.2) = contentType (w_req w)
  ∧ sent (w_events out.2) = sent (w_events w)
  ∧ w_resp out.2 = w_resp w.
Proof.
  intros Hmode Hfiles Hpre Hsrc. cbv zeta.
  destruct (Run_unreadable_file c w pre file post Hfiles) as (Hreq & Hs & Hr).
  { intros (src' & Hsrc' & Herr'). congruence. }
  { destruct Hmode as [[? _]|(_ & ? & _)]; auto. }
  rewrite Hreq. split_and!; [|done..].
  destruct (Run_file_loop c w Hmode) as (log & writer & k & w0 & ->).
  apply bind_Panic. rewrite Hfiles.
  by apply (write_files_nil_reader log pre file post writer w0).
Qed.

(** X18: a call never changes what the caller put on the request: the
    query, the variables, the headers, and the field name and file name of
    each file are after the call what they were before it, however the call
    ends. *)
Theorem Run_keeps_request_inputs c ctx w :
  let req' := w_req (Run c ctx w).2 in
  q req' = q (w_req w)
  ∧ vars req' = vars (w_req w)
  ∧ Header req' = Header (w_req w)
  ∧ (λ file, (Field file, Name file)) <$> files req'
    = (λ file, (Field file, Name file)) <$> files (w_req w).
Proof.
  cbn.
  destruct (Run_cases c ctx w)
    as [(_ & -> & _)|(evs & b & ct & _ & _ & _ & ->)]; [done|].
  by rewrite makeRequest_keeps_req.
Qed.

End Calls.

(** ** Repeated fieldnames in the multipart request spec map *)

Section RepeatedFields.

Lemma last_occurrence {A} (f : A → string) (l : list A) k :
  k ∈ f <$> l →
  ∃ pre x post, l = pre ++ x :: post ∧ f x = k ∧ k ∉ f <$> post.
Proof.
  induction l as [|y l IH]; cbn; intros Hin; [by apply elem_of_nil in Hin|].
  destruct (decide (k ∈ f <$> l)) as [Hl|Hl].
  - destruct (IH Hl) as (pre & x & post & -> & Hx & Hpost).
    by exists (y :: pre), x, post.
  - apply elem_of_cons in Hin as [->|Hin]; [|done].
    by exists [], y, l.
Qed.

Lemma size_list_to_set_le (l : list string) :
  (size (list_to_set l : gset string) ≤ length l)%nat
  ∧ (size (list_to_set l : gset string) = length l ↔ NoDup l).
Proof.
  induction l as [|x l [IHle IHiff]]; cbn.
  - split; [by rewrite size_empty|]. split; [constructor|by rewrite size_empty].
  - destruct (decide (x ∈ l)) as [Hin|Hnotin].
    + assert (({[x]} ∪ list_to_set l : gset string) = list_to_set l) as ->.
      { apply subseteq_union_1_L, singleton_subseteq_l.
        by apply elem_of_list_to_set. }
      split; [lia|]. split; [lia|].
      intros [Hx _]%NoDup_cons. done.
    + rewrite size_union, size_singleton.
      2:{ apply disjoint_singleton_l. by rewrite elem_of_list_to_set. }
      split; [lia|]. rewrite NoDup_cons. split.
      * intros Heq. split; [done|]. apply IHiff. lia.
      * intros [_ Hnodup]. apply IHiff in Hnodup. lia.
Qed.

(** X19: whatever the fieldnames of the files, the map of the multipart
    request spec query has one entry per distinct fieldname, so as many
    entries as files exactly when no fieldname is repeated; each entry is
    the one-element list with the slot of the last file that carries the
    fieldname, so a file whose fieldname a later file repeats is referred to
    by no entry. *)
Theorem fillMultipartRequestSpecQuery_last_file_wins req :
  let entries := Map (fillMultipartRequestSpecQuery req) in
  dom entries = list_to_set (Field <$> files req)
  ∧ (size entries ≤ length (files req))%nat
  ∧ (size entries = length (files req) ↔ NoDup (Field <$> files req))
  ∧ (∀ pre file post,
       files req = pre ++ file :: post →
       Field file ∉ Field <$> post →
       entries !! Field file = Some [path (length pre)])
  ∧ (∀ k paths,
       entries !! k = Some paths →
       ∃ pre file post,
         files req = pre ++ file :: post
         ∧ Field file = k
         ∧ (k ∉ Field <$> post)
         ∧ paths = [path (length pre)]).
Proof.
  cbv zeta.
  pose proof (fillMultipartRequestSpecQuery_dom req) as Hdom.
  assert (∀ pre file post,
            files req = pre ++ file :: post →
            Field file ∉ Field <$> post →
            Map (fillMultipartRequestSpecQuery req) !! Field file
            = Some [path (length pre)]) as Hlast.
  { intros pre file post Hfiles Hpost.
    rewrite fillMultipartRequestSpecQuery_unfold. cbn. rewrite Hfiles.
    by rewrite fill_loop_lookup_last. }
  assert (size (Map (fillMultipartRequestSpecQuery req))
          = size (list_to_set (Field <$> files req) : gset string)) as Hsize.
  { by rewrite <-Hdom, size_dom. }
  destruct (size_list_to_set_le (Field <$> files req)) as [Hle Hiff].
  rewrite length_fmap in Hle, Hiff.
  split_and!; [done|lia|by rewrite Hsize|done|].
  intros k paths Hk.
  assert (k ∈ Field <$> files req) as Hin.
  { apply (elem_of_list_to_set (C := gset string)). rewrite <-Hdom.
    apply elem_of_dom. by eexists. }
  destruct (last_occurrence Field (files req) k Hin)
    as (pre & file & post & Hfiles & <- & Hpost).
  exists pre, file, post. split_and!; [done..|].
  rewrite (Hlast pre file post) in Hk by done. by injection Hk as <-.
Qed.

Lemma fill_loop_snoc index (fs : list File) file placeholders
    (entries : gmap string (list string)) :
  fill_loop index (fs ++ [file]) placeholders entries
  = ((fill_loop index fs placeholders entries).1 ++ [AnyNil],
     <[Field file := [path (index + length fs)]]>
       (fill_loop index fs placeholders entries).2).
Proof.
  revert index placeholders entries.
  induction fs as [|g fs IH]; intros index placeholders entries; cbn.
  - by rewrite Nat.add_0_r.
  - by rewrite IH, Nat.add_succ_r.
Qed.

(** X21: adding a file with [req.File] puts it last in the file list and
    leaves the query and the variables alone; in the multipart request spec
    query it adds one null placeholder and sets the map entry under the
    file's fieldname to the new last slot, every other entry staying as it
    was. *)
Theorem AddFile_fillMultipartRequestSpecQuery fieldname filename r req :
  let req' := AddFile fieldname filename r req in
  Files req'
  = Files req ++ [{| Field := fieldname; Name := filename; R := r |}]
  ∧ Query req' = Query req
  ∧ Vars req' = Vars req
  ∧ Map (fillMultipartRequestSpecQuery req')
    = <[fieldname := [path (length (Files req))]]>
        (Map (fillMultipartRequestSpecQuery req))
  ∧ Operations (fillMultipartRequestSpecQuery req')
    = {| op_Query := Query req;
         op_Variables :=
           Variables (replicate (S (length (Files req))) AnyNil) |}.
Proof.
  cbv zeta. split_and!; [done..| |].
  - rewrite !fillMultipartRequestSpecQuery_unfold. cbn.
    by rewrite fill_loop_snoc.
  - rewrite fillMultipartRequestSpecQuery_unfold. cbn.
    rewrite length_app. cbn. rewrite Nat.add_1_r.
    by rewrite decide_True by lia.
Qed.

End RepeatedFields.

(** ** From the options to the request *)

Section OptionsToRequest.

Context {P : Platform}.

(** X20: the request sent by a client that [NewClient] built from exported
    options goes to the URL given to [NewClient]; it asks for the connection
    to be closed exactly when [ImmediatelyCloseReqBody] is among the options,
    and its body is a multipart form exactly when one of the two multipart
    options is. *)
Theorem NewClient_Run_request url opts ctx w r :
  Forall exported opts →
  sent (w_events (Run (NewClient url opts) ctx w).2)
  = sent (w_events w) ++ [r] →
  URL r = url
  ∧ (Close r = true ↔ ImmediatelyCloseReqBody ∈ opts)
  ∧ ((∃ parts, ReqBody r = Multipart parts)
     ↔ UseMultipartForm ∈ opts ∨ UseMultipartRequestSpec ∈ opts).
Proof.
  intros Hall Hsent.
  destruct (Run_sent_inv _ ctx w r Hsent)
    as (evs & b & ct & do & _ & Henc & _ & _ & _ & _ & ->).
  cbn [URL Close ReqBody outbound staged w_req body].
  destruct (NewClient_fields url opts) as (Hurl & Hform & Hspec & Hclose & _).
  cbv zeta in Hurl, Hform, Hspec, Hclose.
  assert (useMultipartForm (NewClient url opts) = true
          ↔ UseMultipartForm ∈ opts) as Hform_iff.
  { rewrite Hform. apply (options_flag_iff useMultipartForm); [| |done..].
    - intros o c [] ?; auto.
    - by intros o c [] ?. }
  assert (useMultipartRequestSpec (NewClient url opts) = true
          ↔ UseMultipartRequestSpec ∈ opts) as Hspec_iff.
  { rewrite Hspec.
    apply (options_flag_iff useMultipartRequestSpec); [| |done..].
    - intros o c [] ?; auto.
    - by intros o c [] ?. }
  split_and!.
  - by rewrite Hurl, options_keep_endpoint.
  - rewrite Hclose. apply (options_flag_iff closeReq); [| |done..].
    + intros o c [] ?; auto.
    + by intros o c [] ?.
  - rewrite <-Hform_iff, <-Hspec_iff.
    destruct Henc as [j Hf _ _|ops _ Hs _ _ _|j Hf Hs _ _].
    + split; [by left|]. by eexists.
    + split; [by right|]. by eexists.
    + split; [by intros [parts ?]|]. intros [?|?]; congruence.
Qed.

End OptionsToRequest.

(** ** The further properties on sample calls *)

Section FurtherSamples.

Lemma Var_order_witness :
  let req := NewRequest "query" in
  let one := AnyJSON (JNumber 1) in
  let two := AnyJSON (JNumber 2) in
  let three := AnyJSON (JNumber 3) in
  Var "a" one (Var "b" two req) = Var "b" two (Var "a" one req)
  ∧ Var "a" three (Var "b" two (Var "a" one req))
    = Var "b" two (Var "a" three req).
Proof.
  intros req one two three.
  assert ("a" ≠ "b") as Hne.
  { discriminate. }
  exact (Var_order "a" one three "b" two req Hne).
Defined.

Lemma NewClient_options_witness :
  let opts := [ImmediatelyCloseReqBody;
               WithHTTPClient (Some (server 200 body_hero));
               UseMultipartForm] in
  let c := @NewClient sample "https://machinebox.io/graphql" opts in
  endpoint c = "https://machinebox.io/graphql"
  ∧ (useMultipartForm c = true ↔ UseMultipartForm ∈ opts)
  ∧ (useMultipartRequestSpec c = true ↔ UseMultipartRequestSpec ∈ opts)
  ∧ (closeReq c = true ↔ ImmediatelyCloseReqBody ∈ opts).
Proof.
  intros opts c.
  assert (Forall exported opts) as Hall.
  { repeat constructor. }
  exact (@NewClient_options sample "https://machinebox.io/graphql" opts Hall).
Defined.

Lemma NewClient_httpClient_witness :
  let url := "https://machinebox.io/graphql" in
  let opts := [WithHTTPClient (Some unreachable); UseMultipartForm] in
  let rest := [ImmediatelyCloseReqBody] in
  let h := server 200 body_hero in
  httpClient (@NewClient sample url opts) ≠ None
  ∧ httpClient (@NewClient sample url rest) = Some (@DefaultClient sample)
  ∧ httpClient (@NewClient sample url
                  (opts ++ WithHTTPClient (Some h) :: rest))
    = Some h
  ∧ httpClient (@NewClient sample url (opts ++ WithHTTPClient None :: rest))
    = Some (@DefaultClient sample).
Proof.
  intros url opts rest h.
  assert (Forall (λ o, o = UseMultipartForm ∨ o = UseMultipartRequestSpec
                       ∨ o = ImmediatelyCloseReqBody) rest) as Hrest.
  { constructor; [right; right; reflexivity|constructor]. }
  exact (@NewClient_httpClient sample url opts h rest Hrest).
Defined.

Lemma Run_sent_JSON_body_witness :
  let c := sample_client (server 200 body_hero) false false in
  let req := Var "id" (AnyJSON (JNumber 7)) (NewRequest "query") in
  let w := @start sample req None in
  let r := @outbound sample c Pending (w_req (@Run sample c Pending w).2) in
  files req = []
  ∧ ∃ v,
      marshal_vars (vars req) = Ok v
      ∧ ReqBody r
        = JSONBody (JObject [("query", JString "query"); ("variables", v)]).
Proof.
  intros c req w r.
  assert (sent (w_events (@Run sample c Pending w).2)
          = sent (w_events w) ++ [r]) as Hsent.
  { vm_compute. reflexivity. }
  exact (@Run_sent_JSON_body sample c Pending w r eq_refl eq_refl Hsent).
Defined.

Lemma Run_sent_form_body_witness :
  let c := sample_client (server 200 body_hero) true false in
  let req := Var "id" (AnyJSON (JNumber 7))
               (AddFile "b" "b.txt" (reader "BBB")
                  (AddFile "a" "a.txt" (reader "AAA")
                     (NewRequest "mutation"))) in
  let w := @start sample req None in
  let r := @outbound sample c Pending (w_req (@Run sample c Pending w).2) in
  Forall readable (files req)
  ∧ ∃ j,
      marshal_vars (vars req) = Ok j
      ∧ ReqBody r
        = Multipart
            (FormField "query" (Raw "mutation")
               :: (if decide (0 < len_vars req)%nat
                   then [FormField "variables" (JSONText j)] else [])
               ++ ((λ file,
                      FormFile (Field file) (Name file) (content file))
                     <$> files req)).
Proof.
  intros c req w r.
  assert (sent (w_events (@Run sample c Pending w).2)
          = sent (w_events w) ++ [r]) as Hsent.
  { vm_compute. reflexivity. }
  exact (@Run_sent_form_body sample c Pending w r eq_refl Hsent).
Defined.

Lemma Run_sent_request_spec_body_witness :
  let c := sample_client (server 200 body_hero) false true in
  let req := AddFile "b" "b.txt" (reader "BBB")
               (AddFile "a" "a.txt" (reader "AAA") (NewRequest "mutation")) in
  let w := @start sample req None in
  let r := @outbound sample c Pending (w_req (@Run sample c Pending w).2) in
  len_vars req = 0%nat
  ∧ Forall readable (files req)
  ∧ ∃ ops,
      marshal_Operations (Operations (fillMultipartRequestSpecQuery req))
      = Ok ops
      ∧ ReqBody r
        = Multipart
            (FormField "operations" (JSONText ops)
               :: FormField "map"
                    (JSONText
                       (marshal_Map (Map (fillMultipartRequestSpecQuery req))))
               :: ((λ file,
                      FormFile (Field file) (Name file) (content file))
                     <$> files req)).
Proof.
  intros c req w r.
  assert (sent (w_events (@Run sample c Pending w).2)
          = sent (w_events w) ++ [r]) as Hsent.
  { vm_compute. reflexivity. }
  exact (@Run_sent_request_spec_body sample c Pending w r eq_refl eq_refl
           Hsent).
Defined.

Lemma Run_sent_headers_witness :
  let c := sample_client (server 200 body_hero) true false in
  let req :=
    {| q := "query"; vars := None; files := [];
       Header := {["Accept" := ["text/plain"]; "X-Token" := ["abc"; "def"]]};
       body := Empty; contentType := "" |} in
  let w := @start sample req None in
  let r := @outbound sample c Pending (w_req (@Run sample c Pending w).2) in
  (∃ l, ReqHeader r !! @CanonicalMIMEHeaderKey sample "Accept" = Some l
        ∧ head l = Some "application/json; charset=utf-8")
  ∧ (∀ key values v,
       Header req !! key = Some values →
       v ∈ values →
       ∃ l, ReqHeader r !! @CanonicalMIMEHeaderKey sample key = Some l
            ∧ v ∈ l)
  ∧ (@CanonicalMIMEHeaderKey sample "Accept"
     ≠ @CanonicalMIMEHeaderKey sample "Content-Type" →
     ∃ l, ReqHeader r !! @CanonicalMIMEHeaderKey sample "Content-Type"
          = Some l
          ∧ head l
            = Some (if useMultipartForm c || useMultipartRequestSpec c
                    then "multipart/form-data; boundary=" +:+ @boundary sample
                    else "application/json; charset=utf-8")).
Proof.
  intros c req w r.
  assert (sent (w_events (@Run sample c Pending w).2)
          = sent (w_events w) ++ [r]) as Hsent.
  { vm_compute. reflexivity. }
  exact (@Run_sent_headers sample c Pending w r Hsent).
Defined.

Lemma Run_invalid_endpoint_witness :
  let c := {| endpoint := "://machinebox.io/graphql";
              httpClient := Some (server 200 body_hero);
              useMultipartForm := false; useMultipartRequestSpec := false;
              closeReq := false |} in
  let w := @start sample_parsing (NewRequest "query") None in
  let out := @Run sample_parsing c Pending w in
  failed out.1
  ∧ sent (w_events out.2) = sent (w_events w)
  ∧ w_resp out.2 = w_resp w
  ∧ (∀ b ct,
       Pending = Pending →
       @encoded sample_parsing c (w_req w) b ct →
       out.1 = Fail missing_scheme).
Proof.
  intros c w.
  assert (@ParseURL sample_parsing (endpoint c) = Some missing_scheme)
    as Hurl.
  { vm_compute. reflexivity. }
  exact (@Run_invalid_endpoint sample_parsing c Pending w missing_scheme Hurl).
Defined.

Lemma Run_transport_error_witness :
  let c := sample_client unreachable false false in
  let w := @start sample (NewRequest "query") None in
  (@Run sample c Pending w).1 = Fail connection_refused
  ∧ w_resp (@Run sample c Pending w).2 = w_resp w.
Proof.
  intros c w.
  pose (r := @outbound sample c Pending (w_req (@Run sample c Pending w).2)).
  assert (sent (w_events (@Run sample c Pending w).2)
          = sent (w_events w) ++ [r]) as Hsent.
  { vm_compute. reflexivity. }
  exact (@Run_transport_error sample c Pending w unreachable r
           connection_refused eq_refl Hsent eq_refl).
Defined.

Lemma Run_response_read_error_witness :
  let c := sample_client (cut_off 200 "{") false false in
  let w := @start sample (NewRequest "query") None in
  (@Run sample c Pending w).1
  = Fail (errors_Wrap unexpected_EOF "failed to read response body")
  ∧ w_resp (@Run sample c Pending w).2 = w_resp w.
Proof.
  intros c w.
  pose (r := @outbound sample c Pending (w_req (@Run sample c Pending w).2)).
  assert (sent (w_events (@Run sample c Pending w).2)
          = sent (w_events w) ++ [r]) as Hsent.
  { vm_compute. reflexivity. }
  exact (@Run_response_read_error sample c Pending w (cut_off 200 "{") r
           {| StatusCode := 200;
              Body := {| r_data := "{"; r_err := Some unexpected_EOF |} |}
           unexpected_EOF eq_refl Hsent eq_refl eq_refl).
Defined.

Lemma Run_success_inversion_witness :
  let c := sample_client (server 200 body_hero) false false in
  let w := @start sample (NewRequest "query { hero { name } }")
             (Some JNull) in
  ∃ do r res buf gr,
    Pending = Pending
    ∧ httpClient c = Some do
    ∧ sent (w_events (@Run sample c Pending w).2) = sent (w_events w) ++ [r]
    ∧ do r = Ok res
    ∧ io_Copy (Body res) = Ok buf
    ∧ d_err (@Decode sample buf {| Data := w_resp w; Errors := [] |}) = None
    ∧ d_gr (@Decode sample buf {| Data := w_resp w; Errors := [] |})
      = Some gr
    ∧ Errors gr = []
    ∧ w_resp (@Run sample c Pending w).2
      = d_target (@Decode sample buf {| Data := w_resp w; Errors := [] |}).
Proof.
  intros c w.
  assert ((@Run sample c Pending w).1 = Return tt) as Hok.
  { vm_compute. reflexivity. }
  exact (@Run_success_inversion sample c Pending w Hok).
Defined.

Lemma Run_unserialisable_variable_witness :
  let req := Var "done" (AnyUnsupported "chan bool") (NewRequest "query") in
  let w := @start sample req None in
  let form := sample_client (server 200 body_hero) true false in
  let plain := sample_client (server 200 body_hero) false false in
  (useMultipartForm form = true →
   ∃ e, @Run sample form Pending w
        = (Fail (errors_Wrap e "failed to encode variables"), w))
  ∧ (useMultipartForm plain = false →
     useMultipartRequestSpec plain = false →
     files (w_req w) = [] →
     ∃ e, @Run sample plain Pending w
          = (Fail (errors_Wrap e "failed to encode request body"), w)).
Proof.
  intros req w form plain.
  pose (m := <["done" := AnyUnsupported "chan bool"]> (∅ : gmap string any)).
  assert (vars (w_req w) = Some m) as Hvars.
  { reflexivity. }
  assert (m !! "done" = Some (AnyUnsupported "chan bool")) as Hkey.
  { vm_compute. reflexivity. }
  split.
  - exact (proj1 (@Run_unserialisable_variable sample form w m "done"
                    "chan bool" Hvars Hkey)).
  - exact (proj2 (@Run_unserialisable_variable sample plain w m "done"
                    "chan bool" Hvars Hkey)).
Defined.


Lemma Run_file_read_error_witness :
  let c := sample_client (server 200 body_hero) false true in
  let req := AddFile "b" "b.txt" (broken_reader unexpected_EOF)
               (AddFile "a" "a.txt" (reader "AAA") (NewRequest "mutation")) in
  let w := @start sample req None in
  let out := @Run sample c Pending w in
  out.1 = Fail (errors_Wrap unexpected_EOF "failed to copy file content")
  ∧ body (w_req out.2) = body (w_req w)
  ∧ contentType (w_req out.2) = contentType (w_req w)
  ∧ sent (w_events out.2) = sent (w_events w)
  ∧ w_resp out.2 = w_resp w.
Proof.
  intros c req w.
  pose (a := {| Field := "a"; Name := "a.txt"; R := reader "AAA" |}).
  pose (b := {| Field := "b"; Name := "b.txt";
                R := broken_reader unexpected_EOF |}).
  assert ((useMultipartForm c = true
           ∧ ∃ j, marshal_vars (vars (w_req w)) = Ok j)
          ∨ (useMultipartForm c = false ∧ useMultipartRequestSpec c = true
             ∧ len_vars (w_req w) = 0%nat)) as Hmode.
  { right. split_and!; reflexivity. }
  assert (files (w_req w) = [a] ++ b :: []) as Hfiles.
  { reflexivity. }
  assert (Forall readable [a]) as Hpre.
  { repeat constructor. eexists. split; reflexivity. }
  exact (@Run_file_read_error sample c w [a] b []
           {| r_data := ""; r_err := Some unexpected_EOF |} unexpected_EOF
           Hmode Hfiles Hpre eq_refl eq_refl).
Defined.

Lemma Run_file_nil_reader_witness :
  let c := sample_client (server 200 body_hero) true false in
  let req := AddFile "a" "a.txt" None (NewRequest "mutation") in
  let w := @start sample req None in
  let out := @Run sample c Pending w in
  out.1 = Panic "invalid memory address or nil pointer dereference"
  ∧ body (w_req out.2) = body (w_req w)
  ∧ contentType (w_req out.2) = contentType (w_req w)
  ∧ sent (w_events out.2) = sent (w_events w)
  ∧ w_resp out.2 = w_resp w.
Proof.
  intros c req w.
  pose (a := {| Field := "a"; Name := "a.txt"; R := None |}).
  assert ((useMultipartForm c = true
           ∧ ∃ j, marshal_vars (vars (w_req w)) = Ok j)
          ∨ (useMultipartForm c = false ∧ useMultipartRequestSpec c = true
             ∧ len_vars (w_req w) = 0%nat)) as Hmode.
  { left. split; [reflexivity|]. exists JNull. reflexivity. }
  assert (files (w_req w) = [] ++ a :: []) as Hfiles.
  { reflexivity. }
  exact (@Run_file_nil_reader sample c w [] a [] Hmode Hfiles
           (List.Forall_nil readable) eq_refl).
Defined.

Lemma NewClient_Run_request_witness :
  let url := "https://machinebox.io/graphql" in
  let opts := [UseMultipartRequestSpec;
               WithHTTPClient (Some (server 200 body_hero));
               ImmediatelyCloseReqBody] in
  let c := @NewClient sample url opts in
  let w := @start sample (NewRequest "query") None in
  let r := @outbound sample c Pending (w_req (@Run sample c Pending w).2) in
  URL r = url
  ∧ (Close r = true ↔ ImmediatelyCloseReqBody ∈ opts)
  ∧ ((∃ parts, ReqBody r = Multipart parts)
     ↔ UseMultipartForm ∈ opts ∨ UseMultipartRequestSpec ∈ opts).
Proof.
  intros url opts c w r.
  assert (Forall exported opts) as Hall.
  { repeat constructor. }
  assert (sent (w_events (@Run sample c Pending w).2)
          = sent (w_events w) ++ [r]) as Hsent.
  { vm_compute. reflexivity. }
  exact (@NewClient_Run_request sample url opts Pending w r Hall Hsent).
Defined.

End FurtherSamples.
